(** * Manuscript ingestion pipeline (src/main.py): model and properties

    A shallow embedding of the ingestion code of [src/main.py]:
    [_infer_format], the four extractors, [_extract_toc_from_text],
    [_make_sample] and the endpoint [ingest_manuscript].

    Python values are rendered as follows.
    - [str] is a list of Unicode code points ([N]); [len] is [length].
    - [bytes] is a list of [Byte.byte].
    - [Optional[T]] is [option T]; truthiness tests ([if hint:],
      [x or None]) are written out.
    - Exceptions are values of [exn]; a call that may raise returns a
      [result].
    - The built-in string methods that depend only on the fixed sets of
      white-space and line-break code points ([split], [strip],
      [splitlines], [join], [endswith], [in]) are defined here; the ones
      that read the case tables of the Unicode database ([lower],
      [isupper], the regex class [\w]) go through the class
      [UnicodeData]. *)

From Stdlib Require Import NArith ZArith Strings.String Strings.Ascii Strings.Byte.
From Stdlib Require Import Numbers.DecimalString.
From stdpp Require Import base tactics option list gmap.

Abbreviation str := (list N) (only parsing).
Abbreviation bytes := (list byte) (only parsing).

(** Code points of a literal that is written in ASCII. *)
Definition py (s : string) : str :=
  List.map (fun b => Byte.to_N b) (list_byte_of_string s).

(** ** White space: [str.isspace], [str.split()], [str.strip()], [str.join] *)

(** [Py_UNICODE_ISSPACE]: the code points Python treats as white space. *)
Definition isspace (c : N) : bool :=
  match c with
  | 9 | 10 | 11 | 12 | 13 | 28 | 29 | 30 | 31 | 32 | 133 | 160
  | 5760 | 8232 | 8233 | 8239 | 8287 | 12288 => true
  | _ => (8192 <=? c) && (c <=? 8202)
  end%N.

(** Append the pending word to the output, if there is one. *)
Definition flush (word : str) (out : list str) : list str :=
  match word with
  | [] => out
  | _ => word :: out
  end.

(** [s.split()] scans left to right; [word] is the token in progress. *)
Fixpoint split_from (word : str) (s : str) : list str :=
  match s with
  | [] => flush word []
  | c :: rest =>
      if isspace c then flush word (split_from [] rest)
      else split_from (word ++ [c]) rest
  end.

Definition py_split (s : str) : list str := split_from [] s.

Fixpoint py_lstrip (s : str) : str :=
  match s with
  | c :: rest => if isspace c then py_lstrip rest else s
  | [] => []
  end.

Definition py_rstrip (s : str) : str := rev (py_lstrip (rev s)).

(** [s.strip()]: advance past leading white space, then back over trailing. *)
Definition py_strip (s : str) : str := py_rstrip (py_lstrip s).

(** [sep.join(items)]. *)
Fixpoint py_join (sep : str) (items : list str) : str :=
  match items with
  | [] => []
  | x :: rest =>
      match rest with
      | [] => x
      | _ => x ++ sep ++ py_join sep rest
      end
  end.

(** ** SampleBuilder: [_make_sample] *)

Definition _make_sample (full_text : str) : str :=
  let words := py_split full_text in
  let snippet := py_join (py " ") (take 1200 words) in
  py_strip snippet.

(** ** Substring tests: [in], [startswith], [endswith] *)

Fixpoint startswith (s prefix : str) : bool :=
  match prefix, s with
  | [], _ => true
  | p :: ps, c :: cs => (c =? p)%N && startswith cs ps
  | _ :: _, [] => false
  end.

Definition endswith (s suffix : str) : bool := startswith (rev s) (rev suffix).

(** [s.endswith((a, b, ...))] with a tuple of suffixes. *)
Definition endswith_any (s : str) (suffixes : list str) : bool :=
  existsb (endswith s) suffixes.

(** [needle in hay]. *)
Fixpoint contains (needle hay : str) : bool :=
  startswith hay needle ||
  match hay with
  | [] => false
  | _ :: rest => contains needle rest
  end.

(** ** Line splitting: [str.splitlines()] *)

(** [Py_UNICODE_ISLINEBREAK]. *)
Definition islinebreak (c : N) : bool :=
  match c with
  | 10 | 11 | 12 | 13 | 28 | 29 | 30 | 133 | 8232 | 8233 => true
  | _ => false
  end%N.

(** [line] is the segment since the last break.  A carriage return
    followed by a line feed is one break; text after the last break is a
    line only when it is not empty. *)
Fixpoint splitlines_from (line : str) (s : str) : list str :=
  match s with
  | [] => flush line []
  | c :: rest =>
      if islinebreak c then
        line :: match c, rest with
                | 13%N, 10%N :: rest' => splitlines_from [] rest'
                | _, _ => splitlines_from [] rest
                end
      else splitlines_from (line ++ [c]) rest
  end.

Definition py_splitlines (s : str) : list str := splitlines_from [] s.

(** Truthiness of a [str]: non-empty. *)
Definition str_truthy (s : str) : bool :=
  match s with
  | [] => false
  | _ :: _ => true
  end.

(** ** The case tables of the Unicode database

    [str.lower], [str.isupper] and the regex class [\w] read per-code-point
    properties of the Unicode database that ships with the interpreter.
    The tables are not part of the repository; the model takes them as a
    class, and [ascii_data] is their restriction to ASCII. *)

Class UnicodeData := {
  uc_isupper : N → bool;          (* Py_UNICODE_ISUPPER *)
  uc_islower : N → bool;          (* Py_UNICODE_ISLOWER *)
  uc_istitle : N → bool;          (* Py_UNICODE_ISTITLE *)
  uc_isalnum : N → bool;          (* Py_UNICODE_ISALNUM *)
  uc_iscased : N → bool;          (* _PyUnicode_IsCased *)
  uc_iscase_ignorable : N → bool; (* _PyUnicode_IsCaseIgnorable *)
  uc_tolower_full : N → str       (* _PyUnicode_ToLowerFull *)
}.

Definition ascii_isupper (c : N) : bool := (65 <=? c)%N && (c <=? 90)%N.
Definition ascii_islower (c : N) : bool := (97 <=? c)%N && (c <=? 122)%N.
Definition ascii_isdigit (c : N) : bool := (48 <=? c)%N && (c <=? 57)%N.
Definition ascii_isalnum (c : N) : bool :=
  ascii_isupper c || ascii_islower c || ascii_isdigit c.
Definition ascii_iscase_ignorable (c : N) : bool :=
  match c with
  | 39 | 46 | 58 | 94 | 96 => true
  | _ => false
  end%N.
Definition ascii_tolower (c : N) : str :=
  if ascii_isupper c then [(c + 32)%N] else [c].

(** The tables restricted to ASCII: every other code point is uncased,
    not alphanumeric, and lower-cases to itself. *)
Definition ascii_data : UnicodeData := {|
  uc_isupper := ascii_isupper;
  uc_islower := ascii_islower;
  uc_istitle := fun _ => false;
  uc_isalnum := ascii_isalnum;
  uc_iscased := fun c => ascii_isupper c || ascii_islower c;
  uc_iscase_ignorable := ascii_iscase_ignorable;
  uc_tolower_full := ascii_tolower
|}.

(** A database agrees with ASCII below 128. *)
Record AsciiAgree (U : UnicodeData) : Prop := {
  agree_isupper : ∀ c, (c < 128)%N → uc_isupper c = ascii_isupper c;
  agree_islower : ∀ c, (c < 128)%N → uc_islower c = ascii_islower c;
  agree_istitle : ∀ c, (c < 128)%N → uc_istitle c = false;
  agree_isalnum : ∀ c, (c < 128)%N → uc_isalnum c = ascii_isalnum c;
  agree_tolower : ∀ c, (c < 128)%N → uc_tolower_full c = ascii_tolower c
}.

Section CaseMethods.
Context {U : UnicodeData}.

(** First code point of [s] that is not case-ignorable. *)
Fixpoint first_not_ignorable (s : str) : option N :=
  match s with
  | [] => None
  | c :: rest =>
      if uc_iscase_ignorable c then first_not_ignorable rest else Some c
  end.

(** [handle_capital_sigma]: U+03A3 lower-cases to the final form U+03C2
    when a cased letter precedes it and none follows. *)
Definition handle_capital_sigma (before_rev after : str) : N :=
  let preceded :=
    match first_not_ignorable before_rev with
    | Some c => uc_iscased c
    | None => false
    end in
  let followed :=
    match first_not_ignorable after with
    | Some c => uc_iscased c
    | None => false
    end in
  if preceded && negb followed then 962%N else 963%N.

Definition lower_ucs4 (before_rev : str) (c : N) (after : str) : str :=
  if (c =? 931)%N then [handle_capital_sigma before_rev after]
  else uc_tolower_full c.

Fixpoint lower_from (before_rev : str) (s : str) : str :=
  match s with
  | [] => []
  | c :: rest => lower_ucs4 before_rev c rest ++ lower_from (c :: before_rev) rest
  end.

(** [s.lower()]. *)
Definition py_lower (s : str) : str := lower_from [] s.

Fixpoint isupper_loop (cased : bool) (s : str) : bool :=
  match s with
  | [] => cased
  | ch :: rest =>
      if uc_islower ch || uc_istitle ch then false
      else isupper_loop (cased || uc_isupper ch) rest
  end.

(** [s.isupper()]: some cased code point, and none lower or title case. *)
Definition py_isupper (s : str) : bool :=
  match s with
  | [] => false
  | [c] => uc_isupper c
  | _ => isupper_loop false s
  end.

(** The regex class [\w] on [str] patterns. *)
Definition is_word (c : N) : bool := uc_isalnum c || (c =? 95)%N.

(** [\b] between the text already matched ([before_rev], last code point
    first) and the rest of the subject. *)
Definition at_boundary (before_rev after : str) : bool :=
  match before_rev, after with
  | [], [] => false
  | _, _ =>
      let thatp := match before_rev with c :: _ => is_word c | [] => false end in
      let thisp := match after with c :: _ => is_word c | [] => false end in
      xorb thisp thatp
  end.

(** One branch of the alternation followed by [\b]. *)
Definition match_keyword (s keyword : str) : bool :=
  startswith s keyword && at_boundary (rev keyword) (drop (length keyword) s).

(** [re.match(r"^(chapter|part|section)\b", s)] as a truth value. *)
Definition re_match_heading (s : str) : bool :=
  existsb (match_keyword s) [py "chapter"; py "part"; py "section"].

(** ** FormatDetector: [_infer_format] *)

Definition _infer_format (url : str) (hint : option str) : str :=
  match hint with
  | Some (c :: h) => py_lower (c :: h)
  | _ =>
      let url_l := py_lower url in
      if contains (py ".docx") url_l then py "docx"
      else if contains (py "/export?format=docx") url_l then py "docx"
      else if endswith url_l (py ".pdf") || contains (py "format=pdf") url_l
           then py "pdf"
      else if endswith url_l (py ".epub") then py "epub"
      else if endswith url_l (py ".md")
              || contains (py "raw.githubusercontent.com") url_l
           then py "md"
      else py "docx"
  end.

(** ** TocHeuristic: [_extract_toc_from_text] *)

(** The two nested tests of the scan loop, for one line. *)
Definition heading_like (l : str) : bool :=
  if (length l <=? 80)
     && (py_isupper l || re_match_heading (py_lower l)
         || (length (py_split l) <=? 6))
  then (3 <=? length l) && negb (endswith_any l [py "."; py "!"; py "?"])
  else false.

(** The scan loop: append a qualifying line, then leave the loop as soon
    as 30 lines are collected. *)
Fixpoint scan_headings (toc : list str) (lines : list str) : list str :=
  match lines with
  | [] => toc
  | l :: rest =>
      let toc := if heading_like l then toc ++ [l] else toc in
      if 30 <=? length toc then toc else scan_headings toc rest
  end.

(** The deduplication loop with its [seen] set. *)
Fixpoint dedup_loop (seen : gset (list N)) (unique : list str)
    (toc : list str) : list str :=
  match toc with
  | [] => unique
  | h :: rest =>
      if decide (h ∈ seen) then dedup_loop seen unique rest
      else dedup_loop ({[h]} ∪ seen) (unique ++ [h]) rest
  end.

Definition toc_lines (full_text : str) : list str :=
  List.map py_strip
    (List.filter (fun l => str_truthy (py_strip l)) (py_splitlines full_text)).

(** The list [toc] when the scan loop is left. *)
Definition toc_candidates (full_text : str) : list str :=
  scan_headings [] (take 800 (toc_lines full_text)).

Definition _extract_toc_from_text (full_text : str) : list str :=
  let toc := toc_candidates full_text in
  let unique := dedup_loop ∅ [] toc in
  take 20 unique.

End CaseMethods.

(** ** Exceptions and results *)

Inductive utf8_error :=
| InvalidStartByte
| InvalidContinuationByte
| UnexpectedEndOfData.

(** The exceptions the pipeline meets ([Exception] and its subclasses).
    [Error what] stands for any exception raised by a collaborator. *)
Inductive exn :=
| Error (what : str)
| UnicodeDecodeError (reason : utf8_error)
| HTTPException (status_code : Z) (detail : str).

Inductive result (A : Type) :=
| Return (a : A)
| Raise (e : exn).
Arguments Return {A} a.
Arguments Raise {A} e.

Definition result_bind {A B} (m : result A) (k : A → result B) : result B :=
  match m with
  | Return a => k a
  | Raise e => Raise e
  end.

Definition result_map {A B} (f : A → B) (m : result A) : result B :=
  result_bind m (fun a => Return (f a)).

Notation "'let*' x := m 'in' k" := (result_bind m (fun x => k))
  (at level 10, x name, m at level 100, k at level 200).

(** ** MarkdownExtractor: [bytes.decode("utf-8", errors=...)] *)

Inductive error_handler := Strict | Ignore | Replace.

Inductive utf8_step_result :=
| StepEnd
| StepChar (ch : N) (rest : bytes)
| StepError (reason : utf8_error) (rest : bytes).

Definition is_continuation (c : N) : bool := (128 <=? c)%N && (c <? 192)%N.

(** One round of the decoder at the head of [s]: the code point decoded and
    the bytes after it, or the error and the bytes after the erroneous
    range (the place where the handlers [ignore] and [replace] resume). *)
Definition utf8_step (s : bytes) : utf8_step_result :=
  match s with
  | [] => StepEnd
  | b1 :: t1 =>
      let ch := Byte.to_N b1 in
      if (ch <? 128)%N then StepChar ch t1
      else if (ch <? 194)%N then StepError InvalidStartByte t1
      else if (ch <? 224)%N then
        match t1 with
        | [] => StepError UnexpectedEndOfData []
        | b2 :: t2 =>
            let ch2 := Byte.to_N b2 in
            if negb (is_continuation ch2)
            then StepError InvalidContinuationByte t1
            else StepChar (N.shiftl ch 6 + ch2 - (N.shiftl 192 6 + 128))%N t2
        end
      else if (ch <? 240)%N then
        match t1 with
        | [] => StepError UnexpectedEndOfData []
        | b2 :: t2 =>
            let ch2 := Byte.to_N b2 in
            if negb (is_continuation ch2)
               || (if (ch2 <? 160)%N then (ch =? 224)%N else (ch =? 237)%N)
            then StepError InvalidContinuationByte t1
            else
              match t2 with
              | [] => StepError UnexpectedEndOfData []
              | b3 :: t3 =>
                  let ch3 := Byte.to_N b3 in
                  if negb (is_continuation ch3)
                  then StepError InvalidContinuationByte t2
                  else StepChar (N.shiftl ch 12 + N.shiftl ch2 6 + ch3
                                 - (N.shiftl 224 12 + N.shiftl 128 6 + 128))%N t3
              end
        end
      else if (ch <? 245)%N then
        match t1 with
        | [] => StepError UnexpectedEndOfData []
        | b2 :: t2 =>
            let ch2 := Byte.to_N b2 in
            if negb (is_continuation ch2)
               || (if (ch2 <? 144)%N then (ch =? 240)%N else (ch =? 244)%N)
            then StepError InvalidContinuationByte t1
            else
              match t2 with
              | [] => StepError UnexpectedEndOfData []
              | b3 :: t3 =>
                  let ch3 := Byte.to_N b3 in
                  if negb (is_continuation ch3)
                  then StepError InvalidContinuationByte t2
                  else
                    match t3 with
                    | [] => StepError UnexpectedEndOfData []
                    | b4 :: t4 =>
                        let ch4 := Byte.to_N b4 in
                        if negb (is_continuation ch4)
                        then StepError InvalidContinuationByte t3
                        else StepChar
                               (N.shiftl ch 18 + N.shiftl ch2 12
                                + N.shiftl ch3 6 + ch4
                                - (N.shiftl 240 18 + N.shiftl 128 12
                                   + N.shiftl 128 6 + 128))%N t4
                    end
              end
        end
      else StepError InvalidStartByte t1
  end.

(** The decoding loop.  Every round consumes at least one byte, so the
    length of the input bounds the number of rounds. *)
Fixpoint utf8_decode_loop (errors : error_handler) (rounds : nat) (s : bytes)
  : result str :=
  match rounds with
  | O => Return []
  | S rounds =>
      match utf8_step s with
      | StepEnd => Return []
      | StepChar ch rest =>
          result_map (cons ch) (utf8_decode_loop errors rounds rest)
      | StepError reason rest =>
          match errors with
          | Strict => Raise (UnicodeDecodeError reason)
          | Ignore => utf8_decode_loop errors rounds rest
          | Replace =>
              result_map (cons 65533%N) (utf8_decode_loop errors rounds rest)
          end
      end
  end.

(** [s.decode("utf-8", errors=errors)]. *)
Definition decode_utf8 (errors : error_handler) (s : bytes) : result str :=
  utf8_decode_loop errors (length s) s.

Definition _extract_md (file_bytes : bytes) : result str :=
  decode_utf8 Ignore file_bytes.

(** ** The third-party parsers *)

(** A page of a [PdfReader]: what [page.extract_text()] does. *)
Record PdfPage := { extract_text : result (option str) }.

(** An item of an EPUB book. *)
Record EpubItem := { get_type : N; get_content : bytes }.

(** The exception of the attribute lookup [epub.ITEM_DOCUMENT].  The
    constant of that name belongs to the package [ebooklib]; the module
    [ebooklib.epub], which the source imports as [epub], has no attribute
    of that name, so evaluating [epub.ITEM_DOCUMENT] raises
    [AttributeError]. *)
Definition epub_attribute_error : exn :=
  Error (py "module 'ebooklib.epub' has no attribute 'ITEM_DOCUMENT'").

Definition epub_ITEM_DOCUMENT : result N := Raise epub_attribute_error.

Record Parsers := {
  (* [Document(io.BytesIO(b)).paragraphs], each with its [p.text] *)
  docx_paragraphs : bytes → result (list str);
  (* [PdfReader(io.BytesIO(b)).pages] *)
  pdf_pages : bytes → result (list PdfPage);
  (* [epub.read_epub(io.BytesIO(b)).get_items()] *)
  epub_items : bytes → result (list EpubItem);
  (* [BeautifulSoup(c, 'html.parser').get_text(" ")] *)
  soup_get_text : bytes → result str
}.

Definition blank_line : str := [10%N; 10%N].

Section Extractors.
Context (P : Parsers).

(** ** DocxExtractor *)

Fixpoint docx_loop (paragraphs : list str) (ps : list str) : list str :=
  match ps with
  | [] => paragraphs
  | p :: rest =>
      let text := py_strip p in
      if str_truthy text then docx_loop (paragraphs ++ [text]) rest
      else docx_loop paragraphs rest
  end.

Definition _extract_docx (file_bytes : bytes) : result str :=
  let* doc := docx_paragraphs P file_bytes in
  Return (py_join blank_line (docx_loop [] doc)).

(** ** PdfExtractor *)

(** [x or <empty string>] for an optional string. *)
Definition or_empty (x : option str) : str :=
  match x with
  | Some t => t
  | None => []
  end.

(** The page loop: the [except Exception: continue] clause goes on to the
    next page without appending. *)
Fixpoint pdf_loop (texts : list str) (pages : list PdfPage) : list str :=
  match pages with
  | [] => texts
  | page :: rest =>
      match extract_text page with
      | Return t => pdf_loop (texts ++ [or_empty t]) rest
      | Raise _ => pdf_loop texts rest
      end
  end.

Definition _extract_pdf (file_bytes : bytes) : result str :=
  let* reader := pdf_pages P file_bytes in
  Return (py_join blank_line (pdf_loop [] (take 50 reader))).

(** ** EpubExtractor *)

(** The item loop.  The test [item.get_type() == epub.ITEM_DOCUMENT]
    evaluates [epub.ITEM_DOCUMENT] for every item, before any markup is
    parsed. *)
Fixpoint epub_loop (texts : list str) (items : list EpubItem)
  : result (list str) :=
  match items with
  | [] => Return texts
  | item :: rest =>
      let* document_type := epub_ITEM_DOCUMENT in
      if (get_type item =? document_type)%N then
        let* text := soup_get_text P (get_content item) in
        epub_loop (texts ++ [text]) rest
      else epub_loop texts rest
  end.

Definition _extract_epub (file_bytes : bytes) : result str :=
  let* book := epub_items P file_bytes in
  let* texts := epub_loop [] book in
  Return (py_join blank_line texts).

End Extractors.

(** ** IngestionOrchestrator: [ingest_manuscript] *)

Record IngestRequest := {
  source_url : str;
  format : option str;
  cover_url : option str;
  title : option str;
  subtitle : option str
}.

(** Modelled from the spec: the class [Manuscript] is declared in
    [schemas], which is not under src/; the record has the fields of the
    specification's ManuscriptRecord, which are the keyword arguments of
    the call [Manuscript(...)]. *)
Record Manuscript := {
  m_source_url : str;
  m_format : str;
  m_title : option str;
  m_subtitle : option str;
  m_cover_url : option str;
  m_toc : option (list str);
  m_sample_text : option str;
  m_word_count : nat
}.

(** The dictionary returned on success. *)
Record IngestResponse := {
  r_status : str;
  r_id : str;
  r_format : str;
  r_word_count : nat;
  r_toc : list str
}.

Record Response := { status_code : Z; content : bytes }.

(** The calls made to the collaborators, in order. *)
Inductive Call :=
| CallGet (url : str)
| CallCreate (collection : str) (record : Manuscript).

(** Modelled from the spec: [database.create_document] is not under src/;
    the spec gives it as [create(collection, record) -> id] on a document
    store, which may fail with a store write failure.  [Store] is the
    state of that store; the other fields are the HTTP client and the
    text of an exception. *)
Record Services (Store : Type) := {
  (* [requests.get(url, timeout=30)] *)
  requests_get : str → result Response;
  create_document : str → Manuscript → Store → result str * Store;
  (* [str(e)] *)
  exn_str : exn → str
}.
Arguments requests_get {Store} _ _.
Arguments create_document {Store} _ _ _ _.
Arguments exn_str {Store} _ _.

(** [str(n)] for an [int]. *)
Definition py_str_int (n : Z) : str := py (NilEmpty.string_of_int (Z.to_int n)).

(** [x or None]. *)
Definition or_none {A} (truthy : A → bool) (x : A) : option A :=
  if truthy x then Some x else None.

Definition list_truthy {A} (l : list A) : bool :=
  match l with
  | [] => false
  | _ :: _ => true
  end.

Definition str_eqb (a b : str) : bool := bool_decide (a = b).

Section Orchestrator.
Context {U : UnicodeData} {Store : Type} (P : Parsers) (S : Services Store).

(** Body of the first [try]: the GET and the status test. *)
Definition fetch_body (url : str) : result bytes :=
  let* r := requests_get S url in
  if negb (status_code r =? 200)%Z then
    Raise (HTTPException 400
             (py "Failed to fetch document: HTTP " ++ py_str_int (status_code r)))
  else Return (content r).

(** Body of the second [try]: the dispatch on the format tag. *)
Definition extract_body (fmt : str) (content : bytes) : result str :=
  if str_eqb fmt (py "docx") then _extract_docx P content
  else if str_eqb fmt (py "pdf") then _extract_pdf P content
  else if str_eqb fmt (py "epub") then _extract_epub P content
  else if str_eqb fmt (py "md") then _extract_md content
  else Raise (HTTPException 400 (py "Unsupported format: " ++ fmt)).

(** The endpoint.  It returns its outcome, the store it leaves and the
    calls it made to the collaborators. *)
Definition ingest_manuscript (req : IngestRequest) (st : Store)
  : result IngestResponse * Store * list Call :=
  let fmt := _infer_format (source_url req) (format req) in
  match fetch_body (source_url req) with
  | Raise e =>
      (Raise (HTTPException 400 (py "Error fetching document: " ++ exn_str S e)),
       st, [CallGet (source_url req)])
  | Return content =>
      match extract_body fmt content with
      | Raise (HTTPException status_code detail) =>
          (Raise (HTTPException status_code detail),
           st, [CallGet (source_url req)])
      | Raise e =>
          (Raise (HTTPException 500
                    (py "Failed to parse " ++ fmt ++ py ": " ++ exn_str S e)),
           st, [CallGet (source_url req)])
      | Return full_text =>
          let toc := _extract_toc_from_text full_text in
          let sample_text := _make_sample full_text in
          let word_count := length (py_split full_text) in
          let manuscript := {|
            m_source_url := source_url req;
            m_format := fmt;
            m_title := title req;
            m_subtitle := subtitle req;
            m_cover_url := cover_url req;
            m_toc := or_none list_truthy toc;
            m_sample_text := or_none str_truthy sample_text;
            m_word_count := word_count
          |} in
          let calls :=
            [CallGet (source_url req); CallCreate (py "manuscript") manuscript] in
          match create_document S (py "manuscript") manuscript st with
          | (Raise e, st') =>
              (Raise (HTTPException 500
                        (py "Failed to save manuscript: " ++ exn_str S e)),
               st', calls)
          | (Return doc_id, st') =>
              (Return {|
                 r_status := py "ok";
                 r_id := doc_id;
                 r_format := fmt;
                 r_word_count := word_count;
                 r_toc := take 10 toc
               |}, st', calls)
          end
      end
  end.

End Orchestrator.

(** ** The read endpoints: [get_latest_manuscript], [get_sample] *)

Section ReadEndpoints.
Context {Value : Type}.

(** The read side of the store: [get_documents(collection, filter, limit)]
    is declared in [database]; a stored document is a dict from field
    names to values. *)
Record Reader := {
  get_documents :
    str → gmap (list N) Value → Z → result (list (gmap (list N) Value));
  (* [str(e)] *)
  reader_exn_str : exn → str
}.

(** [{"exists": False}] or [{"exists": True, "manuscript": m}]. *)
Inductive LatestResponse :=
| NoManuscript
| LatestManuscript (manuscript : gmap (list N) Value).

(** [{"sample_text": ..., "toc": ...}]; [None] is what [m.get] gives for a
    missing key. *)
Record SampleResponse := {
  s_sample_text : option Value;
  s_toc : option Value
}.

(** Body of the [try] of [get_latest_manuscript]; [m.pop("_id", None)]
    removes the key from the dict that is returned. *)
Definition latest_body (R : Reader) : result LatestResponse :=
  let* docs := get_documents R (py "manuscript") ∅ 1 in
  match docs with
  | [] => Return NoManuscript
  | first :: rest =>
      let m := List.last docs first in
      let m := delete (py "_id") m in
      Return (LatestManuscript m)
  end.

Definition get_latest_manuscript (R : Reader) : result LatestResponse :=
  match latest_body R with
  | Return response => Return response
  | Raise e => Raise (HTTPException 500 (reader_exn_str R e))
  end.

(** Body of the [try] of [get_sample]. *)
Definition sample_body (R : Reader) : result SampleResponse :=
  let* docs := get_documents R (py "manuscript") ∅ 1 in
  match docs with
  | [] => Raise (HTTPException 404 (py "No manuscript available"))
  | first :: rest =>
      let m := List.last docs first in
      Return {| s_sample_text := m !! py "sample_text"; s_toc := m !! py "toc" |}
  end.

Definition get_sample (R : Reader) : result SampleResponse :=
  match sample_body R with
  | Return response => Return response
  | Raise (HTTPException status_code detail) =>
      Raise (HTTPException status_code detail)
  | Raise e => Raise (HTTPException 500 (reader_exn_str R e))
  end.

End ReadEndpoints.
Arguments Reader Value : clear implicits.
Arguments LatestResponse Value : clear implicits.
Arguments SampleResponse Value : clear implicits.

(** ** The diagnostic endpoint: [test_database] *)

(** The handle [db] of the [database] module: its [name] attribute, if it
    has one, and what [list_collection_names()] does. *)
Record DbHandle := {
  db_name : option str;
  list_collection_names : result (list str)
}.

Record Diagnostics := {
  db : option DbHandle;
  (* [os.getenv(name)] *)
  getenv : str → option str;
  (* [str(e)] *)
  diag_exn_str : exn → str
}.

(** The dict [response], one field per key. *)
Record TestResponse := {
  t_backend : str;
  t_database : str;
  t_database_url : option str;
  t_database_name : option str;
  t_connection_status : str;
  t_collections : list str
}.

Definition set_database (v : str) (r : TestResponse) : TestResponse :=
  {| t_backend := t_backend r; t_database := v;
     t_database_url := t_database_url r; t_database_name := t_database_name r;
     t_connection_status := t_connection_status r;
     t_collections := t_collections r |}.

Definition set_database_url (v : str) (r : TestResponse) : TestResponse :=
  {| t_backend := t_backend r; t_database := t_database r;
     t_database_url := Some v; t_database_name := t_database_name r;
     t_connection_status := t_connection_status r;
     t_collections := t_collections r |}.

Definition set_database_name (v : str) (r : TestResponse) : TestResponse :=
  {| t_backend := t_backend r; t_database := t_database r;
     t_database_url := t_database_url r; t_database_name := Some v;
     t_connection_status := t_connection_status r;
     t_collections := t_collections r |}.

Definition set_connection_status (v : str) (r : TestResponse) : TestResponse :=
  {| t_backend := t_backend r; t_database := t_database r;
     t_database_url := t_database_url r; t_database_name := t_database_name r;
     t_connection_status := v;
     t_collections := t_collections r |}.

Definition set_collections (v : list str) (r : TestResponse) : TestResponse :=
  {| t_backend := t_backend r; t_database := t_database r;
     t_database_url := t_database_url r; t_database_name := t_database_name r;
     t_connection_status := t_connection_status r;
     t_collections := v |}.

(** The marks of the messages: U+2705, U+274C, and U+26A0 with U+FE0F. *)
Definition check_mark : str := [9989%N].
Definition cross_mark : str := [10060%N].
Definition warning_sign : str := [9888%N; 65039%N].

(** Truthiness of an optional string: present and not empty. *)
Definition opt_truthy (x : option str) : bool :=
  match x with
  | Some (_ :: _) => true
  | _ => false
  end.

(** The endpoint.  Of the operations inside the outer [try], only
    [list_collection_names()] raises here, and the inner [except] catches
    it, so the outer [except] clause is never entered. *)
Definition test_database (E : Diagnostics) : TestResponse :=
  let response := {|
    t_backend := check_mark ++ py " Running";
    t_database := cross_mark ++ py " Not Available";
    t_database_url := None;
    t_database_name := None;
    t_connection_status := py "Not Connected";
    t_collections := []
  |} in
  let response :=
    match db E with
    | Some handle =>
        let response := set_database (check_mark ++ py " Available") response in
        let response := set_database_url (check_mark ++ py " Configured") response in
        let response :=
          set_database_name
            (match db_name handle with
             | Some name => name
             | None => check_mark ++ py " Connected"
             end) response in
        let response := set_connection_status (py "Connected") response in
        match list_collection_names handle with
        | Return collections =>
            let response := set_collections (take 10 collections) response in
            set_database (check_mark ++ py " Connected & Working") response
        | Raise e =>
            set_database
              (warning_sign ++ py "  Connected but Error: "
               ++ take 50 (diag_exn_str E e)) response
        end
    | None =>
        set_database (warning_sign ++ py "  Available but not initialized") response
    end in
  let response :=
    set_database_url
      (if opt_truthy (getenv E (py "DATABASE_URL"))
       then check_mark ++ py " Set" else cross_mark ++ py " Not Set") response in
  let response :=
    set_database_name
      (if opt_truthy (getenv E (py "DATABASE_NAME"))
       then check_mark ++ py " Set" else cross_mark ++ py " Not Set") response in
  response.

(** ** Predicates used in the statements *)

Definition nospace (w : str) : Prop := Forall (fun c => isspace c = false) w.

(** A token: non-empty and free of white space. *)
Definition token (w : str) : Prop := w ≠ [] ∧ nospace w.

(** A joined token list neither starts nor ends with white space. *)
Definition tight (s : str) : Prop :=
  match s with
  | [] => True
  | c :: _ => isspace c = false
  end.

(** ** The scan of the TOC heuristic in the words of the specification *)

Section TocRules.
Context {U : UnicodeData}.

Definition heading_keywords : list str := [py "chapter"; py "part"; py "section"].

(** The line starts with one of the keywords, case-insensitively. *)
Definition starts_with_keyword (l : str) : bool :=
  existsb (startswith (py_lower l)) heading_keywords.

(** The line starts with one of the keywords, case-insensitively, and the
    keyword ends the line or is followed by a code point that is not a
    word character. *)
Definition starts_with_keyword_word (l : str) : bool :=
  existsb
    (fun k =>
       startswith (py_lower l) k
       && match drop (length k) (py_lower l) with
          | [] => true
          | c :: _ => negb (is_word c)
          end)
    heading_keywords.

(** The qualification rule, given the test for the keyword prefix. *)
Definition qualifies (keyword_rule : str → bool) (l : str) : bool :=
  (3 <=? length l) && (length l <=? 80)
  && negb (endswith l (py ".") || endswith l (py "!") || endswith l (py "?"))
  && (py_isupper l || keyword_rule l || (length (py_split l) <=? 6)).

(** The lines of the text, trimmed, without the empty ones. *)
Definition trimmed_lines (full_text : str) : list str :=
  List.filter str_truthy (List.map py_strip (py_splitlines full_text)).

(** Non-empty trimmed lines, the first 800 of them, the qualifying ones,
    the first 30 of those. *)
Definition scan_rule (keyword_rule : str → bool) (full_text : str) : list str :=
  take 30 (List.filter (qualifies keyword_rule) (take 800 (trimmed_lines full_text))).

End TocRules.

(** ** Format detection in the words of the specification *)

Section DetectRules.
Context {U : UnicodeData}.

(** The URL rules, in order: a test on the lower-cased URL and its tag. *)
Definition url_rules : list ((str → bool) * str) :=
  [ (contains (py ".docx"), py "docx");
    (contains (py "/export?format=docx"), py "docx");
    (fun u => endswith u (py ".pdf") || contains (py "format=pdf") u, py "pdf");
    (fun u => endswith u (py ".epub"), py "epub");
    (fun u => endswith u (py ".md")
              || contains (py "raw.githubusercontent.com") u, py "md") ].

(** First match wins; [default] when no rule matches. *)
Fixpoint first_match (rules : list ((str → bool) * str)) (default u : str) : str :=
  match rules with
  | [] => default
  | (test, tag) :: rest => if test u then tag else first_match rest default u
  end.

Definition detect_by_url (url : str) : str :=
  first_match url_rules (py "docx") (py_lower url).

(** A hint that is present is returned lower-cased, whatever it is. *)
Definition detect_as_stated (url : str) (hint : option str) : str :=
  match hint with
  | Some h => py_lower h
  | None => detect_by_url url
  end.

(** A hint that is present and not empty is returned lower-cased. *)
Definition detect_amended (url : str) (hint : option str) : str :=
  match hint with
  | Some h => if str_truthy h then py_lower h else detect_by_url url
  | None => detect_by_url url
  end.

End DetectRules.

(** ** PDF extraction in the words of the specification *)

(** A page whose extraction fails contributes an empty string. *)
Definition page_text_or_empty (page : PdfPage) : str :=
  match extract_text page with
  | Return t => or_empty t
  | Raise _ => []
  end.

Definition extract_pdf_as_stated (P : Parsers) (file_bytes : bytes) : result str :=
  let* reader := pdf_pages P file_bytes in
  Return (py_join blank_line (List.map page_text_or_empty (take 50 reader))).

(** A page whose extraction fails contributes nothing. *)
Definition page_text_if_readable (page : PdfPage) : option str :=
  match extract_text page with
  | Return t => Some (or_empty t)
  | Raise _ => None
  end.

Definition extract_pdf_amended (P : Parsers) (file_bytes : bytes) : result str :=
  let* reader := pdf_pages P file_bytes in
  Return (py_join blank_line (omap page_text_if_readable (take 50 reader))).

(** ** The sample in the words of the specification *)

(** The tokens rejoined with single spaces: the first token, and every
    other token after one space. *)
Definition single_spaced (tokens : list str) : str :=
  match tokens with
  | [] => []
  | first :: others => first ++ concat (List.map (fun w => 32%N :: w) others)
  end.

(** The code points of a text that are not white space. *)
Definition without_space (s : str) : str :=
  List.filter (fun c => negb (isspace c)) s.

(** A text with white space of several kinds at the ends and between the
    words. *)
Definition ragged_text : str :=
  py "  a   b " ++ [10%N; 9%N] ++ py "c " ++ [160%N].

(** ** Lossy decoding in the words of the specification *)

(** A Unicode scalar value: below 0x110000 and not a surrogate. *)
Definition scalar_value (c : N) : Prop :=
  (c < 1114112)%N ∧ ¬ (55296 <= c <= 57343)%N.

Definition byte_of_N (n : N) : byte :=
  match Byte.of_N n with
  | Some b => b
  | None => x00
  end.

(** The UTF-8 encoding form of the Unicode Standard: the bytes of one
    scalar value. *)
Definition utf8_encode (c : N) : bytes :=
  if (c <? 128)%N then [byte_of_N c]
  else if (c <? 2048)%N then
    [byte_of_N (192 + c / 64); byte_of_N (128 + c mod 64)]
  else if (c <? 65536)%N then
    [byte_of_N (224 + c / 4096); byte_of_N (128 + (c / 64) mod 64);
     byte_of_N (128 + c mod 64)]
  else
    [byte_of_N (240 + c / 262144); byte_of_N (128 + (c / 4096) mod 64);
     byte_of_N (128 + (c / 64) mod 64); byte_of_N (128 + c mod 64)].

(** The text of a byte sequence with its invalid bytes left out, reading
    from the left: where the encoding of a scalar value starts, the value
    is kept and reading goes on after it; a byte at which no encoding of a
    scalar value starts is invalid and is left out. *)
Inductive drops_invalid : bytes → str → Prop :=
| drops_end : drops_invalid [] []
| drops_keep c rest text :
    scalar_value c →
    drops_invalid rest text →
    drops_invalid (utf8_encode c ++ rest) (c :: text)
| drops_skip b rest text :
    (∀ c, scalar_value c → ¬ utf8_encode c `prefix_of` (b :: rest)) →
    drops_invalid rest text →
    drops_invalid (b :: rest) text.

(** ** Concrete inputs *)

Definition partially_line : str :=
  py "Partially this is a line with many many words here".

Definition book_pdf_url : str := py "https://example.org/book.pdf".

(** Parsers that fail on every input, to be overridden field by field. *)
Definition no_parsers : Parsers := {|
  docx_paragraphs := fun _ => Raise (Error (py "not a docx package"));
  pdf_pages := fun _ => Raise (Error (py "not a pdf file"));
  epub_items := fun _ => Raise (Error (py "not an epub file"));
  soup_get_text := fun _ => Return []
|}.

(** A PDF of three pages, the second one unreadable. *)
Definition three_pages : list PdfPage :=
  [ {| extract_text := Return (Some (py "A")) |};
    {| extract_text := Raise (Error (py "unreadable page")) |};
    {| extract_text := Return (Some (py "B")) |} ].

Definition three_page_parsers : Parsers := {|
  docx_paragraphs := docx_paragraphs no_parsers;
  pdf_pages := fun _ => Return three_pages;
  epub_items := epub_items no_parsers;
  soup_get_text := soup_get_text no_parsers
|}.

(** The scenario of the specification: [# Title], a blank line,
    [Hello world foo]. *)
Definition scenario_bytes : bytes :=
  list_byte_of_string "# Title" ++ [x0a; x0a] ++ list_byte_of_string "Hello world foo".

Definition scenario_text : str :=
  py "# Title" ++ blank_line ++ py "Hello world foo".

(** 1201 one-letter words. *)
Definition long_bytes : bytes := concat (replicate 1201 [x61; x20]).

(** A document store in memory that holds at most [capacity] records:
    create appends the record and returns its position as the id, or
    fails with a write failure and leaves the store as it is. *)
Definition memory_services (capacity : nat) (reply : result Response)
  : Services (list (str * Manuscript)) := {|
  requests_get := fun _ => reply;
  create_document := fun collection record st =>
    if length st <? capacity
    then (Return (py_str_int (Z.of_nat (length st))), st ++ [(collection, record)])
    else (Raise (Error (py "store write failure")), st);
  exn_str := fun e =>
    match e with
    | Error what => what
    | UnicodeDecodeError _ => py "UnicodeDecodeError"
    | HTTPException status_code detail =>
        py_str_int status_code ++ py ": " ++ detail
    end
|}.

(** A store whose create writes the record and then fails. *)
Definition leaky_services (reply : result Response)
  : Services (list (str * Manuscript)) := {|
  requests_get := fun _ => reply;
  create_document := fun collection record st =>
    (Raise (Error (py "write interrupted")), st ++ [(collection, record)]);
  exn_str := fun e =>
    match e with
    | Error what => what
    | UnicodeDecodeError _ => py "UnicodeDecodeError"
    | HTTPException status_code detail =>
        py_str_int status_code ++ py ": " ++ detail
    end
|}.

Definition ok_reply (body : bytes) : result Response :=
  Return {| status_code := 200; content := body |}.

Definition md_request : IngestRequest := {|
  source_url := py "https://example.org/notes";
  format := Some (py "md");
  cover_url := None;
  title := None;
  subtitle := None
|}.

(** The word count in the response of a run, if it has one. *)
Definition response_word_count {Store}
    (run : result IngestResponse * Store * list Call) : option nat :=
  match run with
  | (Return r, _, _) => Some (r_word_count r)
  | (Raise _, _, _) => None
  end.

(** How an exception of the extraction stage reaches the caller: an
    [HTTPException] as it is, any other as a 500. *)
Definition surfaced_extraction_error {Store} (S : Services Store)
    (fmt : str) (e : exn) : exn :=
  match e with
  | HTTPException status_code detail => HTTPException status_code detail
  | _ => HTTPException 500 (py "Failed to parse " ++ fmt ++ py ": " ++ exn_str S e)
  end.

Definition is_create (c : Call) : bool :=
  match c with
  | CallCreate _ _ => true
  | CallGet _ => false
  end.

Definition supported_formats : list str := [py "docx"; py "pdf"; py "epub"; py "md"].

(** Three heading lines, the first one repeated at the end. *)
Definition repeated_heading_text : str :=
  py "Intro" ++ [10%N] ++ py "Part One" ++ [10%N] ++ py "Intro".

(** Text made of ASCII code points only. *)
Definition ascii_text (s : str) : Prop := Forall (fun c => (c < 128)%N) s.

(** [needle] occurs in [hay] as a contiguous run. *)
Definition occurs_in (needle hay : str) : Prop := ∃ a b, hay = a ++ needle ++ b.

(** Index of the first occurrence of [x] in [l] ([length l] if absent). *)
Fixpoint first_pos (x : str) (l : list str) : nat :=
  match l with
  | [] => 0
  | y :: rest => if decide (x = y) then 0 else S (first_pos x rest)
  end.

(** A reader over a fixed list of documents, and one that fails. *)
Definition fixed_reader (docs : list (gmap (list N) str)) : Reader str := {|
  get_documents := fun _ _ _ => Return docs;
  reader_exn_str := fun e => match e with Error what => what | _ => [] end
|}.

Definition stored_manuscript : gmap (list N) str :=
  <[py "_id" := py "65f0"]> (<[py "sample_text" := py "Hello world"]> ∅).

(** An EPUB of a cover image (type 1) and two chapters (type 9). *)
Definition two_chapters : list EpubItem :=
  [ {| get_type := 1; get_content := [x00] |};
    {| get_type := 9; get_content := [x01] |};
    {| get_type := 9; get_content := [x02] |} ].

(** Parsers for a DOCX of four paragraphs and for [two_chapters]. *)
Definition chapter_parsers : Parsers := {|
  docx_paragraphs := fun _ => Return [py "  One  "; py " "; [10%N]; py "Two words"];
  pdf_pages := pdf_pages no_parsers;
  epub_items := fun _ => Return two_chapters;
  soup_get_text := fun c =>
    match c with
    | [x01] => Return (py "Chapter one")
    | [x02] => Return (py "Chapter two")
    | _ => Raise (Error (py "not markup"))
    end
|}.


(** A database whose listing fails. *)
Definition failing_db : Diagnostics := {|
  db := Some {| db_name := Some (py "prod");
                list_collection_names := Raise (Error (py "timeout")) |};
  getenv := fun _ => Some [];
  diag_exn_str := fun e => match e with Error what => what | _ => [] end
|}.

(** * Properties *)

(** ** Tokens produced by [split] *)

Lemma nospace_snoc w c : nospace w → isspace c = false → nospace (w ++ [c]).
Proof. intros Hw Hc. apply Forall_app. split; [done | by constructor]. Qed.

Lemma flush_tokens w out :
  nospace w → Forall token out → Forall token (flush w out).
Proof.
  intros Hw Hout. destruct w as [|c w]; simpl; [done|].
  constructor; [split; [done | exact Hw] | done].
Qed.

Lemma split_from_tokens s : ∀ w, nospace w → Forall token (split_from w s).
Proof.
  induction s as [|c s IH]; intros w Hw; simpl.
  - by apply flush_tokens.
  - destruct (isspace c) eqn:Hc.
    + apply flush_tokens; [done|]. apply IH. constructor.
    + apply IH. by apply nospace_snoc.
Qed.

Lemma py_split_tokens s : Forall token (py_split s).
Proof. apply split_from_tokens. constructor. Qed.

(** Reading a white-space-free run extends the pending word. *)
Lemma split_from_run w : ∀ a s,
  nospace w → split_from a (w ++ s) = split_from (a ++ w) s.
Proof.
  induction w as [|c w IH]; intros a s Hw; simpl.
  - by rewrite app_nil_r.
  - inversion Hw as [|? ? Hc Hw']; subst. rewrite Hc.
    rewrite IH by done. by rewrite <- app_assoc.
Qed.

Lemma split_from_space a c s :
  isspace c = true → split_from a (c :: s) = flush a (py_split s).
Proof. intros Hc. simpl. by rewrite Hc. Qed.

(** The three equations that determine [split]. *)
Lemma py_split_nil : py_split [] = [].
Proof. reflexivity. Qed.

Lemma py_split_token w : token w → py_split w = [w].
Proof.
  intros [Hne Hw]. unfold py_split.
  rewrite <- (app_nil_r w) at 1. rewrite split_from_run by done.
  simpl. by destruct w.
Qed.

Lemma flush_app w out : flush w out = flush w [] ++ out.
Proof. by destruct w. Qed.

Lemma split_from_pending s : ∀ w,
  nospace w → split_from w s = py_split (w ++ s).
Proof.
  intros w Hw. unfold py_split. by rewrite split_from_run.
Qed.

Lemma split_from_sep a c b : ∀ w,
  isspace c = true → split_from w (a ++ c :: b) = split_from w a ++ py_split b.
Proof.
  induction a as [|x a IH]; intros w Hc; simpl.
  - rewrite Hc. apply flush_app.
  - destruct (isspace x); [|by apply IH].
    rewrite IH by done.
    rewrite (flush_app w (_ ++ _)), (flush_app w (split_from _ a)).
    by rewrite app_assoc.
Qed.

Lemma py_split_sep a c b :
  isspace c = true → py_split (a ++ c :: b) = py_split a ++ py_split b.
Proof. apply split_from_sep. Qed.

(** ** Joining tokens with single spaces and splitting again *)

Lemma isspace_space : isspace 32 = true.
Proof. reflexivity. Qed.

Lemma py_space : py " " = [32%N].
Proof. reflexivity. Qed.

Lemma split_join_tokens ws :
  Forall token ws → py_split (py_join (py " ") ws) = ws.
Proof.
  rewrite py_space.
  induction ws as [|w ws IH]; intros Hws; [done|].
  inversion Hws as [|? ? [Hne Hw] Hws']; subst.
  simpl. destruct ws as [|w' ws].
  - by apply py_split_token.
  - change (w ++ [32%N] ++ py_join [32%N] (w' :: ws))
      with (w ++ 32%N :: py_join [32%N] (w' :: ws)).
    rewrite py_split_sep by apply isspace_space.
    rewrite py_split_token by done. rewrite IH by done. done.
Qed.

Lemma py_lstrip_tight s : tight s → py_lstrip s = s.
Proof. destruct s as [|c s]; simpl; [done|]. by intros ->. Qed.

Lemma py_strip_tight s : tight s → tight (rev s) → py_strip s = s.
Proof.
  intros H1 H2. unfold py_strip, py_rstrip.
  rewrite (py_lstrip_tight s) by done.
  rewrite (py_lstrip_tight (rev s)) by done.
  apply rev_involutive.
Qed.

Lemma tight_app_token w s : token w → tight (w ++ s).
Proof.
  intros [Hne Hw]. destruct w as [|c w]; [done|].
  simpl. by inversion Hw.
Qed.

Lemma tight_rev_token w : token w → tight (rev w).
Proof.
  intros [Hne Hw]. assert (Hr : nospace (rev w)).
  { by apply List.Forall_rev. }
  destruct (rev w) as [|c r] eqn:E; [done|]. simpl. by inversion Hr.
Qed.

Lemma tight_rev_app s t : t ≠ [] → tight (rev t) → tight (rev (s ++ t)).
Proof.
  intros Hne Ht. rewrite rev_app_distr.
  destruct (rev t) as [|c r] eqn:E; [|exact Ht].
  exfalso. apply Hne. apply (f_equal (@rev N)) in E.
  by rewrite rev_involutive in E.
Qed.

Lemma join_tokens_nonempty sep w ws : token w → py_join sep (w :: ws) ≠ [].
Proof.
  intros [Hne _]. simpl. destruct ws; [done|].
  destruct w; [done|]. discriminate.
Qed.

Lemma join_tokens_tight ws :
  Forall token ws →
  tight (py_join (py " ") ws) ∧ tight (rev (py_join (py " ") ws)).
Proof.
  rewrite py_space.
  induction ws as [|w ws IH]; intros Hws; [done|].
  inversion Hws as [|? ? Htok Hws']; subst.
  destruct ws as [|w' ws].
  - simpl. split; [|by apply tight_rev_token].
    rewrite <- (app_nil_r w). by apply tight_app_token.
  - destruct (IH Hws') as [_ Hr]. clear IH.
    change (py_join [32%N] (w :: w' :: ws))
      with (w ++ [32%N] ++ py_join [32%N] (w' :: ws)).
    split; [by apply tight_app_token|].
    rewrite app_assoc. apply tight_rev_app; [|done].
    inversion Hws'; subst. by apply join_tokens_nonempty.
Qed.

Lemma strip_join_tokens ws :
  Forall token ws → py_strip (py_join (py " ") ws) = py_join (py " ") ws.
Proof.
  intros Hws. destruct (join_tokens_tight ws Hws).
  by apply py_strip_tight.
Qed.

Lemma take_tokens n ws : Forall token ws → Forall token (take n ws).
Proof. apply Forall_take. Qed.

(** The tokens of the sample are the first 1200 tokens of the text. *)
Lemma split_make_sample t :
  py_split (_make_sample t) = take 1200 (py_split t).
Proof.
  unfold _make_sample. cbv zeta.
  pose proof (take_tokens 1200 _ (py_split_tokens t)) as Htok.
  rewrite strip_join_tokens by done.
  by apply split_join_tokens.
Qed.

Lemma make_sample_join t :
  _make_sample t = py_join (py " ") (take 1200 (py_split t)).
Proof.
  unfold _make_sample. cbv zeta.
  apply strip_join_tokens, take_tokens, py_split_tokens.
Qed.

(** ** SampleBuilder *)

Lemma make_sample_nil t : _make_sample t = [] ↔ py_split t = [].
Proof.
  rewrite make_sample_join. split.
  - intros E. pose proof (py_split_tokens t) as Htok.
    destruct (py_split t) as [|w ws]; [done|].
    inversion Htok; subst. exfalso.
    change (take 1200 (w :: ws)) with (w :: take 1199 ws) in E.
    revert E. by apply join_tokens_nonempty.
  - by intros ->.
Qed.

Lemma take_min_length {A} (l : list A) n : take (length l `min` n) l = take n l.
Proof.
  destruct (decide (length l ≤ n)) as [Hle|Hgt].
  - rewrite Nat.min_l by done. rewrite firstn_all. by rewrite take_ge.
  - by rewrite Nat.min_r by lia.
Qed.

Lemma join_single_spaced ws : py_join (py " ") ws = single_spaced ws.
Proof.
  induction ws as [|w ws IH]; [done|].
  destruct ws as [|w' ws]; [simpl; by rewrite app_nil_r|].
  change (py_join (py " ") (w :: w' :: ws))
    with (w ++ 32%N :: py_join (py " ") (w' :: ws)).
  rewrite IH. unfold single_spaced. simpl. reflexivity.
Qed.

Lemma without_space_app a b :
  without_space (a ++ b) = without_space a ++ without_space b.
Proof. unfold without_space. apply List.filter_app. Qed.

Lemma without_space_nospace w : nospace w → without_space w = w.
Proof.
  unfold without_space. induction 1 as [|c w Hc _ IH]; [done|].
  simpl. by rewrite Hc, IH.
Qed.

(** The tokens hold the code points of the text that are not white space,
    in order. *)
Lemma concat_split_from s : ∀ w,
  nospace w → concat (split_from w s) = w ++ without_space s.
Proof.
  induction s as [|c s IH]; intros w Hw.
  - simpl. destruct w; simpl; by rewrite ?app_nil_r.
  - cbn [split_from]. unfold without_space. simpl.
    destruct (isspace c) eqn:Hc; simpl.
    + rewrite flush_app, concat_app, (IH []) by constructor.
      destruct w; simpl; by rewrite ?app_nil_r.
    + rewrite IH by (by apply nospace_snoc). by rewrite <- app_assoc.
Qed.

(** C5. [_make_sample] is a total function.  It splits the text on white
    space: the tokens are non-empty, free of white space, and hold the
    code points of the text that are not white space, in order.  It takes
    the first 1200 tokens and rejoins them with single spaces; the result
    has no white space left to trim at either end, and splitting it again
    gives those tokens: at most 1200. *)
Theorem make_sample_joins_first_1200_tokens (full_text : str) :
  let tokens := take 1200 (py_split full_text) in
  Forall token (py_split full_text)
  ∧ concat (py_split full_text) = without_space full_text
  ∧ _make_sample full_text = single_spaced tokens
  ∧ py_strip (_make_sample full_text) = _make_sample full_text
  ∧ py_split (_make_sample full_text) = tokens
  ∧ length (py_split (_make_sample full_text)) ≤ 1200.
Proof.
  cbv zeta.
  split; [apply py_split_tokens|].
  split; [apply (concat_split_from full_text []); constructor|].
  split; [by rewrite make_sample_join, join_single_spaced|].
  split.
  - rewrite make_sample_join.
    apply strip_join_tokens, take_tokens, py_split_tokens.
  - split; [apply split_make_sample|].
    rewrite split_make_sample, length_take. lia.
Qed.

Lemma make_sample_joins_first_1200_tokens_witness :
  _make_sample ragged_text = py "a b c"
  ∧ py_split (_make_sample ragged_text) = [py "a"; py "b"; py "c"].
Proof.
  pose proof (make_sample_joins_first_1200_tokens ragged_text)
    as (_ & _ & Hsample & _ & Hsplit & _).
  split.
  - rewrite Hsample. reflexivity.
  - rewrite Hsplit. reflexivity.
Defined.

(** C10. The tokens of the sample are exactly the first
    [min word_count 1200] tokens of the text, where [word_count] is the
    number of tokens of the whole text; so the sample has
    [min word_count 1200] tokens, and it is empty exactly when
    [word_count] is 0. *)
Theorem sample_tokens_are_leading_tokens (full_text : str) :
  let word_count := length (py_split full_text) in
  py_split (_make_sample full_text)
    = take (word_count `min` 1200) (py_split full_text)
  ∧ length (py_split (_make_sample full_text)) = word_count `min` 1200
  ∧ (_make_sample full_text = [] ↔ word_count = 0).
Proof.
  cbv zeta. rewrite split_make_sample, take_min_length. split; [done|].
  split; [by rewrite length_take; lia|].
  rewrite make_sample_nil. split; [by intros ->|].
  by destruct (py_split full_text).
Qed.

(** ** TocHeuristic: deduplication and truncation *)

Lemma dedup_loop_app toc : ∀ seen unique,
  dedup_loop seen unique toc = unique ++ dedup_loop seen [] toc.
Proof.
  induction toc as [|h toc IH]; intros seen unique; simpl.
  - by rewrite app_nil_r.
  - destruct (decide (h ∈ seen)); [apply IH|].
    rewrite (IH _ (unique ++ [h])), (IH _ [h]). by rewrite <- app_assoc.
Qed.

Lemma dedup_loop_cons h toc seen :
  dedup_loop seen [] (h :: toc)
  = if decide (h ∈ seen) then dedup_loop seen [] toc
    else h :: dedup_loop ({[h]} ∪ seen) [] toc.
Proof.
  simpl. destruct (decide (h ∈ seen)); [done|]. by rewrite dedup_loop_app.
Qed.

Lemma dedup_loop_elem toc : ∀ seen x,
  x ∈ dedup_loop seen [] toc ↔ x ∈ toc ∧ x ∉ seen.
Proof.
  induction toc as [|h toc IH]; intros seen x.
  - simpl. split; [by intros ?%elem_of_nil | by intros [?%elem_of_nil _]].
  - rewrite dedup_loop_cons. destruct (decide (h ∈ seen)) as [Hin|Hout].
    + rewrite IH, elem_of_cons. set_solver.
    + rewrite !elem_of_cons, IH. split.
      * intros [->|[? ?]]; [by auto|]. split; [by auto|set_solver].
      * intros [[->|?] ?]; [by left|].
        destruct (decide (x = h)) as [->|]; [by left|]. right. set_solver.
Qed.

Lemma dedup_loop_NoDup toc : ∀ seen, NoDup (dedup_loop seen [] toc).
Proof.
  induction toc as [|h toc IH]; intros seen.
  - constructor.
  - rewrite dedup_loop_cons. destruct (decide (h ∈ seen)); [apply IH|].
    constructor; [|apply IH]. rewrite dedup_loop_elem. set_solver.
Qed.

Lemma first_pos_head x toc : first_pos x (x :: toc) = 0.
Proof. simpl. by destruct (decide (x = x)). Qed.

Lemma first_pos_tail x h toc :
  x ≠ h → first_pos x (h :: toc) = S (first_pos x toc).
Proof. intros Hne. simpl. by destruct (decide (x = h)). Qed.

(** Entries come out in the order of their first occurrences. *)
Lemma dedup_loop_order toc : ∀ seen i j x y,
  i < j →
  dedup_loop seen [] toc !! i = Some x →
  dedup_loop seen [] toc !! j = Some y →
  first_pos x toc < first_pos y toc.
Proof.
  induction toc as [|h toc IH]; intros seen i j x y Hij Hx Hy; [done|].
  rewrite dedup_loop_cons in Hx, Hy.
  destruct (decide (h ∈ seen)) as [Hin|Hout].
  - assert (x ≠ h ∧ y ≠ h) as [Hxh Hyh].
    { split; intros ->.
      - apply list_elem_of_lookup_2, dedup_loop_elem in Hx. tauto.
      - apply list_elem_of_lookup_2, dedup_loop_elem in Hy. tauto. }
    rewrite !first_pos_tail by done.
    apply -> Nat.succ_lt_mono. by eapply IH.
  - destruct j as [|j]; [lia|]. simpl in Hy.
    assert (y ≠ h) as Hyh.
    { intros ->. apply list_elem_of_lookup_2, dedup_loop_elem in Hy. set_solver. }
    rewrite (first_pos_tail y) by done.
    destruct i as [|i]; simpl in Hx.
    + injection Hx as ->. rewrite first_pos_head. lia.
    + assert (x ≠ h) as Hxh.
      { intros ->. apply list_elem_of_lookup_2, dedup_loop_elem in Hx. set_solver. }
      rewrite first_pos_tail by done.
      apply -> Nat.succ_lt_mono. eapply IH; [|done..]. lia.
Qed.

(** C3. The table of contents has at most 20 entries and no duplicates,
    and its entries are lines collected by the scan, in the order of their
    first occurrences there. *)
Theorem toc_bounded_distinct_ordered `{U : UnicodeData} (full_text : str) :
  let toc := _extract_toc_from_text full_text in
  length toc ≤ 20
  ∧ NoDup toc
  ∧ (∀ x, x ∈ toc → x ∈ toc_candidates full_text)
  ∧ (∀ i j x y, i < j → toc !! i = Some x → toc !! j = Some y →
       first_pos x (toc_candidates full_text)
       < first_pos y (toc_candidates full_text)).
Proof.
  unfold _extract_toc_from_text. cbv zeta.
  split; [rewrite length_take; lia|].
  split; [eapply sublist_NoDup; [apply dedup_loop_NoDup | apply sublist_take]|].
  split.
  - intros x Hx. apply elem_of_take in Hx as (i & Hx & _).
    apply list_elem_of_lookup_2, dedup_loop_elem in Hx. tauto.
  - intros i j x y Hij Hx Hy.
    apply lookup_take_Some in Hx as [Hx _].
    apply lookup_take_Some in Hy as [Hy _].
    by eapply dedup_loop_order.
Qed.

Lemma toc_bounded_distinct_ordered_witness :
  let toc := _extract_toc_from_text (U:=ascii_data) repeated_heading_text in
  let scanned := toc_candidates (U:=ascii_data) repeated_heading_text in
  scanned = [py "Intro"; py "Part One"; py "Intro"]
  ∧ toc = [py "Intro"; py "Part One"]
  ∧ first_pos (py "Intro") scanned < first_pos (py "Part One") scanned.
Proof.
  cbv zeta. split; [vm_compute; reflexivity|]. split; [vm_compute; reflexivity|].
  refine (proj2 (proj2 (proj2
    (toc_bounded_distinct_ordered (U:=ascii_data) repeated_heading_text)))
    0 1 _ _ _ _ _).
  - lia.
  - vm_compute. reflexivity.
  - vm_compute. reflexivity.
Defined.

(** ** TocHeuristic: the scan *)

Lemma ascii_data_agree : AsciiAgree ascii_data.
Proof. by constructor. Qed.

Section Scan.
Context {U : UnicodeData}.

Lemma scan_headings_cons toc l lines :
  scan_headings toc (l :: lines)
  = if heading_like l
    then if 30 <=? length (toc ++ [l]) then toc ++ [l]
         else scan_headings (toc ++ [l]) lines
    else if 30 <=? length toc then toc else scan_headings toc lines.
Proof. simpl. by destruct (heading_like l). Qed.

(** The loop with its early exit collects the first 30 qualifying lines. *)
Lemma scan_headings_take lines : ∀ toc,
  length toc < 30 →
  scan_headings toc lines
  = toc ++ take (30 - length toc) (List.filter heading_like lines).
Proof.
  induction lines as [|l lines IH]; intros toc Hlen.
  - simpl. by rewrite take_nil, app_nil_r.
  - rewrite scan_headings_cons.
    change (List.filter heading_like (l :: lines))
      with (if heading_like l then l :: List.filter heading_like lines
            else List.filter heading_like lines).
    destruct (heading_like l) eqn:Hl.
    + destruct (30 <=? length (toc ++ [l])) eqn:Hfull.
      * apply Nat.leb_le in Hfull. rewrite length_app in Hfull.
        change (length [l]) with 1 in Hfull.
        replace (30 - length toc) with 1 by lia. reflexivity.
      * apply Nat.leb_gt in Hfull. rewrite IH by done.
        rewrite length_app in *. change (length [l]) with 1 in *.
        replace (30 - length toc) with (S (30 - (length toc + 1))) by lia.
        rewrite <- app_assoc. reflexivity.
    + destruct (30 <=? length toc) eqn:Hfull.
      * apply Nat.leb_le in Hfull. lia.
      * by apply IH.
Qed.

Lemma toc_candidates_take full_text :
  toc_candidates full_text
  = take 30 (List.filter heading_like (take 800 (toc_lines full_text))).
Proof.
  unfold toc_candidates. by rewrite scan_headings_take by (simpl; lia).
Qed.

(** After a keyword, [\b] holds exactly at the end of the subject or before
    a code point that is not a word character. *)
Lemma match_keyword_boundary s k c r :
  rev k = c :: r → is_word c = true →
  match_keyword s k
  = startswith s k
    && match drop (length k) s with
       | [] => true
       | c' :: _ => negb (is_word c')
       end.
Proof.
  intros Hk Hc. unfold match_keyword, at_boundary. rewrite Hk, Hc.
  destruct (drop (length k) s) as [|c' ?]; [done|].
  by destruct (is_word c').
Qed.

Lemma is_word_lower_ascii c :
  AsciiAgree U → ascii_islower c = true → is_word c = true.
Proof.
  intros HU Hc. unfold is_word.
  assert (c < 128)%N as Hlt.
  { unfold ascii_islower in Hc. apply andb_true_iff in Hc as [_ Hc].
    apply N.leb_le in Hc. lia. }
  rewrite (agree_isalnum U HU c Hlt). unfold ascii_isalnum. rewrite Hc.
  by rewrite orb_true_r.
Qed.

Lemma re_match_heading_word l :
  AsciiAgree U → re_match_heading (py_lower l) = starts_with_keyword_word l.
Proof.
  intros HU. unfold re_match_heading, starts_with_keyword_word, heading_keywords.
  simpl existsb.
  rewrite (match_keyword_boundary (py_lower l) (py "chapter") 114%N
             (rev (py "chapte")) eq_refl) by (by apply is_word_lower_ascii).
  rewrite (match_keyword_boundary (py_lower l) (py "part") 116%N
             (rev (py "par")) eq_refl) by (by apply is_word_lower_ascii).
  rewrite (match_keyword_boundary (py_lower l) (py "section") 110%N
             (rev (py "sectio")) eq_refl) by (by apply is_word_lower_ascii).
  done.
Qed.

Lemma heading_like_qualifies l :
  AsciiAgree U → heading_like l = qualifies starts_with_keyword_word l.
Proof.
  intros HU. unfold heading_like, qualifies, endswith_any.
  rewrite (re_match_heading_word l HU). simpl existsb. rewrite orb_false_r.
  destruct (3 <=? length l), (length l <=? 80),
    (py_isupper l || starts_with_keyword_word l || (length (py_split l) <=? 6));
    simpl; rewrite ?andb_true_r, ?andb_false_r, ?orb_assoc; done.
Qed.

Lemma filter_map_bool {A B} (f : A → B) (p : B → bool) l :
  List.filter p (List.map f l) = List.map f (List.filter (fun x => p (f x)) l).
Proof.
  induction l as [|x l IH]; simpl; [done|].
  destruct (p (f x)); simpl; by rewrite IH.
Qed.

Lemma toc_lines_trimmed full_text : toc_lines full_text = trimmed_lines full_text.
Proof. unfold toc_lines, trimmed_lines. by rewrite filter_map_bool. Qed.

Lemma filter_ext_bool {A} (f g : A → bool) l :
  (∀ x, f x = g x) → List.filter f l = List.filter g l.
Proof. intros E. induction l as [|x l IH]; simpl; [done|]. by rewrite E, IH. Qed.

End Scan.

(** *** ASCII text is treated alike by all tables that agree with ASCII *)

Section AsciiText.
Context {U : UnicodeData} (HU : AsciiAgree U).

Lemma lower_from_ascii s : ∀ before before',
  ascii_text s →
  lower_from (U:=U) before s = lower_from (U:=ascii_data) before' s.
Proof.
  induction s as [|c s IH]; intros before before' Hs; [done|].
  inversion Hs as [|? ? Hc Hs']; subst. cbn [lower_from].
  unfold lower_ucs4.
  assert ((c =? 931)%N = false) as -> by (apply N.eqb_neq; lia).
  rewrite (agree_tolower U HU c Hc). f_equal. by apply IH.
Qed.

Lemma py_lower_ascii s :
  ascii_text s → py_lower (U:=U) s = py_lower (U:=ascii_data) s.
Proof. apply lower_from_ascii. Qed.

Lemma ascii_tolower_ascii c : (c < 128)%N → ascii_text (ascii_tolower c).
Proof.
  intros Hc. unfold ascii_tolower, ascii_isupper.
  destruct (65 <=? c)%N eqn:H1, (c <=? 90)%N eqn:H2; simpl;
    repeat constructor; try done.
  apply N.leb_le in H2. lia.
Qed.

Lemma lower_ascii_text s :
  ascii_text s → ascii_text (py_lower (U:=ascii_data) s).
Proof.
  unfold py_lower. generalize (@nil N) as before.
  induction s as [|c s IH]; intros before Hs; [constructor|].
  inversion Hs as [|? ? Hc Hs']; subst. cbn [lower_from].
  apply Forall_app. split; [|by apply IH].
  unfold lower_ucs4.
  assert ((c =? 931)%N = false) as -> by (apply N.eqb_neq; lia).
  by apply ascii_tolower_ascii.
Qed.

Lemma isupper_loop_ascii s : ∀ cased,
  ascii_text s →
  isupper_loop (U:=U) cased s = isupper_loop (U:=ascii_data) cased s.
Proof.
  induction s as [|c s IH]; intros cased Hs; [done|].
  inversion Hs as [|? ? Hc Hs']; subst. simpl.
  rewrite (agree_islower U HU c Hc), (agree_istitle U HU c Hc),
    (agree_isupper U HU c Hc).
  destruct (ascii_islower c); simpl; [done|]. by apply IH.
Qed.

Lemma py_isupper_ascii s :
  ascii_text s → py_isupper (U:=U) s = py_isupper (U:=ascii_data) s.
Proof.
  intros Hs. destruct s as [|c [|d s]]; [done| |].
  - inversion Hs; subst. simpl. by apply agree_isupper.
  - by apply isupper_loop_ascii.
Qed.

Lemma is_word_ascii c :
  (c < 128)%N → is_word (U:=U) c = is_word (U:=ascii_data) c.
Proof. intros Hc. unfold is_word. by rewrite (agree_isalnum U HU c Hc). Qed.

Lemma at_boundary_ascii before after :
  ascii_text before → ascii_text after →
  at_boundary (U:=U) before after = at_boundary (U:=ascii_data) before after.
Proof.
  intros Hb Ha. unfold at_boundary.
  destruct before as [|b before], after as [|a after]; [done|..];
    repeat match goal with
           | H : ascii_text (_ :: _) |- _ => inversion H; subst; clear H
           end;
    by rewrite ?is_word_ascii by done.
Qed.

Lemma match_keyword_ascii s k :
  ascii_text s → ascii_text k →
  match_keyword (U:=U) s k = match_keyword (U:=ascii_data) s k.
Proof.
  intros Hs Hk. unfold match_keyword. f_equal.
  apply at_boundary_ascii; [by apply List.Forall_rev | by apply Forall_drop].
Qed.

Lemma ascii_text_py lit :
  forallb (fun c => (c <? 128)%N) (py lit) = true → ascii_text (py lit).
Proof.
  intros H. apply Forall_forall. intros c Hc.
  rewrite forallb_forall in H. apply N.ltb_lt, H. by apply list_elem_of_In.
Qed.

Lemma re_match_heading_ascii s :
  ascii_text s →
  re_match_heading (U:=U) s = re_match_heading (U:=ascii_data) s.
Proof.
  intros Hs. unfold re_match_heading. simpl existsb.
  by rewrite !match_keyword_ascii by (done || by apply ascii_text_py).
Qed.

(** The test of the scan loop is the same for a line of ASCII text. *)
Lemma heading_like_ascii l :
  ascii_text l → heading_like (U:=U) l = heading_like (U:=ascii_data) l.
Proof.
  intros Hl. unfold heading_like.
  rewrite (py_isupper_ascii l Hl), (py_lower_ascii l Hl).
  by rewrite re_match_heading_ascii by (by apply lower_ascii_text).
Qed.

(** The line [Partially ...] is rejected by the scan whatever the tables
    say outside ASCII. *)
Lemma partially_line_rejected : heading_like (U:=U) partially_line = false.
Proof.
  rewrite heading_like_ascii by (by apply ascii_text_py).
  vm_compute. reflexivity.
Qed.

Lemma partially_line_starts_with_keyword :
  starts_with_keyword (U:=U) partially_line = true.
Proof.
  unfold starts_with_keyword.
  rewrite py_lower_ascii by (by apply ascii_text_py).
  vm_compute. reflexivity.
Qed.

End AsciiText.

(** C4 as stated fails: a long line that starts with the letters of a
    keyword but goes on with a word character ([Partially ...]) would be
    collected by the rule as worded, and the scan does not collect it. *)
Lemma scan_rejects_keyword_inside_word :
  toc_candidates (U:=ascii_data) partially_line
  ≠ scan_rule (U:=ascii_data) (starts_with_keyword (U:=ascii_data)) partially_line.
Proof. vm_compute. discriminate. Qed.

(** C4 (amended). The scan takes the non-empty trimmed lines, looks at the
    first 800 of them, and collects the first 30 that have between 3 and
    80 code points, do not end with a full stop, exclamation mark or
    question mark, and are upper-case, or start (case-insensitively) with
    [chapter], [part] or [section] followed by a word boundary, or have at
    most 6 white-space-delimited words. *)
Theorem toc_scan_follows_rule `{U : UnicodeData} (full_text : str) :
  AsciiAgree U →
  toc_candidates full_text = scan_rule starts_with_keyword_word full_text.
Proof.
  intros HU. rewrite toc_candidates_take. unfold scan_rule.
  rewrite toc_lines_trimmed. f_equal.
  apply filter_ext_bool. intros l. by apply heading_like_qualifies.
Qed.

Lemma toc_scan_follows_rule_witness :
  AsciiAgree ascii_data
  ∧ toc_candidates (U:=ascii_data) partially_line
    = scan_rule (U:=ascii_data) (starts_with_keyword_word (U:=ascii_data))
        partially_line.
Proof.
  split.
  - constructor; reflexivity.
  - apply (@toc_scan_follows_rule ascii_data partially_line).
    constructor; reflexivity.
Defined.

(** ** FormatDetector *)

Lemma startswith_prefix p : ∀ s, startswith s p = true ↔ ∃ r, s = p ++ r.
Proof.
  induction p as [|x p IH]; intros s.
  - split; [intros _; by exists s | by destruct s].
  - destruct s as [|c s]; simpl.
    + split; [done | by intros [r ?]].
    + rewrite andb_true_iff, N.eqb_eq, IH. split.
      * intros [-> [r ->]]. by exists r.
      * intros [r [= -> ->]]. split; [done | by exists r].
Qed.

Lemma endswith_suffix s x : endswith s x = true ↔ ∃ a, s = a ++ x.
Proof.
  unfold endswith. rewrite startswith_prefix. split.
  - intros [r E]. exists (rev r). apply (f_equal (@rev N)) in E.
    by rewrite rev_involutive, rev_app_distr, rev_involutive in E.
  - intros [a ->]. exists (rev a). by rewrite rev_app_distr.
Qed.

Lemma contains_unfold n h :
  contains n h
  = startswith h n || match h with [] => false | _ :: rest => contains n rest end.
Proof. by destruct h. Qed.

Lemma contains_substring n : ∀ h, contains n h = true ↔ ∃ a b, h = a ++ n ++ b.
Proof.
  induction h as [|c h IH];
    rewrite contains_unfold, orb_true_iff, startswith_prefix.
  - split.
    + intros [[r E]|?]; [|done]. by exists [], r.
    + intros (a & b & E). left. destruct a; [by exists b|done].
  - rewrite IH. split.
    + intros [[r E]|(a & b & ->)]; [by exists [], r|]. by exists (c :: a), b.
    + intros (a & b & E). destruct a as [|c' a]; [left; by exists b|].
      right. injection E as -> ->. by exists a, b.
Qed.

(** C2 as stated fails: an empty hint is present, and it is not returned;
    the URL decides. *)
Lemma empty_hint_is_not_returned :
  _infer_format (U:=ascii_data) book_pdf_url (Some [])
  ≠ detect_as_stated (U:=ascii_data) book_pdf_url (Some []).
Proof. vm_compute. discriminate. Qed.

Lemma infer_format_detect `{U : UnicodeData} (url : str) (hint : option str) :
  _infer_format url hint = detect_amended url hint.
Proof.
  unfold _infer_format, detect_amended, detect_by_url, url_rules, first_match.
  destruct hint as [[|c h]|]; reflexivity.
Qed.

Lemma endswith_suffix_of s x : endswith s x = true ↔ x `suffix_of` s.
Proof. apply endswith_suffix. Qed.

Lemma contains_occurs n h : contains n h = true ↔ occurs_in n h.
Proof. apply contains_substring. Qed.

(** C2 (amended). [_infer_format] always returns a tag.  A hint that is
    present and not empty is returned lower-cased, whatever the URL.
    Otherwise the first matching rule on the lower-cased URL decides:
    contains [.docx]: docx; contains [/export?format=docx]: docx; ends
    with [.pdf] or contains [format=pdf]: pdf; ends with [.epub]: epub;
    ends with [.md] or contains [raw.githubusercontent.com]: md; none:
    docx. *)
Theorem infer_format_follows_rules `{U : UnicodeData} (url : str) (hint : option str) :
  let tag := _infer_format url hint in
  let u := py_lower url in
  let docx1 := occurs_in (py ".docx") u in
  let docx2 := occurs_in (py "/export?format=docx") u in
  let pdf := py ".pdf" `suffix_of` u ∨ occurs_in (py "format=pdf") u in
  let epub := py ".epub" `suffix_of` u in
  let md := py ".md" `suffix_of` u ∨ occurs_in (py "raw.githubusercontent.com") u in
  (∀ h, hint = Some h → h ≠ [] → tag = py_lower h)
  ∧ (hint = None ∨ hint = Some [] →
       (docx1 → tag = py "docx")
       ∧ (¬ docx1 → docx2 → tag = py "docx")
       ∧ (¬ docx1 → ¬ docx2 → pdf → tag = py "pdf")
       ∧ (¬ docx1 → ¬ docx2 → ¬ pdf → epub → tag = py "epub")
       ∧ (¬ docx1 → ¬ docx2 → ¬ pdf → ¬ epub → md → tag = py "md")
       ∧ (¬ docx1 → ¬ docx2 → ¬ pdf → ¬ epub → ¬ md → tag = py "docx")).
Proof.
  intros tag u docx1 docx2 pdf epub md. subst tag.
  rewrite infer_format_detect. split.
  - intros h -> Hne. simpl. by destruct h.
  - intros Hhint.
    assert (detect_amended url hint = detect_by_url url) as ->.
    { by destruct Hhint as [->| ->]. }
    unfold detect_by_url, url_rules, first_match. fold u.
    subst docx1 docx2 pdf epub md.
    rewrite <- !contains_occurs, <- !endswith_suffix_of.
    destruct (contains (py ".docx") u),
      (contains (py "/export?format=docx") u),
      (endswith u (py ".pdf")), (contains (py "format=pdf") u),
      (endswith u (py ".epub")), (endswith u (py ".md")),
      (contains (py "raw.githubusercontent.com") u);
      simpl; intuition congruence.
Qed.

Lemma infer_format_follows_rules_witness :
  let u := py_lower (U:=ascii_data) book_pdf_url in
  ¬ occurs_in (py ".docx") u
  ∧ ¬ occurs_in (py "/export?format=docx") u
  ∧ py ".pdf" `suffix_of` u
  ∧ _infer_format (U:=ascii_data) book_pdf_url None = py "pdf".
Proof.
  cbv zeta.
  assert (H1 : ¬ occurs_in (py ".docx") (py_lower (U:=ascii_data) book_pdf_url)).
  { rewrite <- contains_occurs. vm_compute. discriminate. }
  assert (H2 : ¬ occurs_in (py "/export?format=docx")
                 (py_lower (U:=ascii_data) book_pdf_url)).
  { rewrite <- contains_occurs. vm_compute. discriminate. }
  assert (H3 : py ".pdf" `suffix_of` py_lower (U:=ascii_data) book_pdf_url).
  { apply endswith_suffix_of. vm_compute. reflexivity. }
  split; [exact H1|]. split; [exact H2|]. split; [exact H3|].
  refine (proj1 (proj2 (proj2 (proj2
    (infer_format_follows_rules (U:=ascii_data) book_pdf_url None)
    (or_introl eq_refl)))) H1 H2 (or_introl H3)).
Defined.

(** ** PdfExtractor *)

Lemma pdf_loop_omap pages : ∀ texts,
  pdf_loop texts pages = texts ++ omap page_text_if_readable pages.
Proof.
  induction pages as [|page pages IH]; intros texts; simpl.
  - by rewrite app_nil_r.
  - unfold page_text_if_readable at 1.
    destruct (extract_text page) as [t|e]; [|apply IH].
    rewrite IH. by rewrite <- app_assoc.
Qed.

(** C6 as stated fails: with three pages of which the second cannot be
    read, the result is the first and the third text with one blank line
    between them; an empty string for the second page would leave two. *)
Lemma unreadable_page_leaves_no_empty_string :
  _extract_pdf three_page_parsers [] = Return (py "A" ++ blank_line ++ py "B")
  ∧ _extract_pdf three_page_parsers []
    ≠ extract_pdf_as_stated three_page_parsers [].
Proof. split; [reflexivity | vm_compute; discriminate]. Qed.

(** C6 (amended). PDF extraction looks at the first 50 pages at most; a
    page whose extraction raises is skipped and contributes nothing, a
    page without text contributes an empty string; the texts are joined
    with a blank line; once the reader has the pages, extraction returns,
    so no exception of a page escapes. *)
Theorem extract_pdf_skips_unreadable_pages (P : Parsers) (file_bytes : bytes) :
  _extract_pdf P file_bytes = extract_pdf_amended P file_bytes
  ∧ (∀ pages, pdf_pages P file_bytes = Return pages →
       _extract_pdf P file_bytes
       = Return (py_join blank_line
                   (omap page_text_if_readable (take 50 pages)))).
Proof.
  assert (E : _extract_pdf P file_bytes = extract_pdf_amended P file_bytes).
  { unfold _extract_pdf, extract_pdf_amended.
    destruct (pdf_pages P file_bytes) as [pages|e]; simpl; [|done].
    by rewrite pdf_loop_omap. }
  split; [exact E|].
  intros pages Hpages. rewrite E. unfold extract_pdf_amended.
  by rewrite Hpages.
Qed.

Lemma extract_pdf_skips_unreadable_pages_witness :
  pdf_pages three_page_parsers [] = Return three_pages
  ∧ _extract_pdf three_page_parsers []
    = Return (py_join blank_line
                (omap page_text_if_readable (take 50 three_pages))).
Proof.
  split; [reflexivity|].
  apply (extract_pdf_skips_unreadable_pages three_page_parsers []).
  reflexivity.
Defined.

(** ** MarkdownExtractor *)

(** A round that decodes a code point reads a block of bytes from the
    head of the input, and looks at nothing beyond it. *)
Lemma utf8_step_char s ch rest :
  utf8_step s = StepChar ch rest →
  ∃ block, s = block ++ rest ∧ block ≠ []
           ∧ ∀ rest', utf8_step (block ++ rest') = StepChar ch rest'.
Proof.
  unfold utf8_step. intros H.
  repeat case_match; simplify_eq;
    first
      [ eexists [_]; split; [reflexivity|]; split; [discriminate|]
      | eexists [_; _]; split; [reflexivity|]; split; [discriminate|]
      | eexists [_; _; _]; split; [reflexivity|]; split; [discriminate|]
      | eexists [_; _; _; _]; split; [reflexivity|]; split; [discriminate|] ];
    intros rest'; simpl;
    repeat match goal with
           | E : ?c = _ |- context [?c] => rewrite E
           end; reflexivity.
Qed.

(** A round that reports an error leaves out a non-empty block of bytes. *)
Lemma utf8_step_error s reason rest :
  utf8_step s = StepError reason rest →
  ∃ block, s = block ++ rest ∧ block ≠ [].
Proof.
  unfold utf8_step. intros H.
  repeat case_match; simplify_eq;
    first
      [ by eexists [_]
      | by eexists [_; _]
      | by eexists [_; _; _] ].
Qed.

Lemma utf8_step_nil : utf8_step [] = StepEnd.
Proof. reflexivity. Qed.

Lemma utf8_step_end s : utf8_step s = StepEnd → s = [].
Proof. unfold utf8_step. intros H. by repeat case_match. Qed.

(** Rounds beyond the length of the input are never used. *)
Lemma utf8_decode_loop_rounds errors : ∀ n m s,
  length s ≤ n → length s ≤ m →
  utf8_decode_loop errors n s = utf8_decode_loop errors m s.
Proof.
  induction n as [|n IH]; intros m s Hn Hm.
  - destruct s; [|simpl in Hn; lia]. by destruct m.
  - destruct m as [|m].
    + destruct s; [|simpl in Hm; lia]. reflexivity.
    + simpl. destruct (utf8_step s) as [|ch rest|reason rest] eqn:Hstep.
      * reflexivity.
      * apply utf8_step_char in Hstep as (block & -> & Hne & _).
        rewrite length_app in Hn, Hm.
        assert (0 < length block) by (destruct block; [done|simpl; lia]).
        by rewrite (IH m rest) by lia.
      * apply utf8_step_error in Hstep as (block & -> & Hne).
        rewrite length_app in Hn, Hm.
        assert (0 < length block) by (destruct block; [done|simpl; lia]).
        destruct errors; [done| |]; by rewrite (IH m rest) by lia.
Qed.

(** The decoder, one round at a time. *)
Lemma decode_utf8_unfold errors s :
  decode_utf8 errors s
  = match utf8_step s with
    | StepEnd => Return []
    | StepChar ch rest => result_map (cons ch) (decode_utf8 errors rest)
    | StepError reason rest =>
        match errors with
        | Strict => Raise (UnicodeDecodeError reason)
        | Ignore => decode_utf8 errors rest
        | Replace => result_map (cons 65533%N) (decode_utf8 errors rest)
        end
    end.
Proof.
  unfold decode_utf8. destruct s as [|b s]; [reflexivity|].
  change (length (b :: s)) with (S (length s)).
  cbn [utf8_decode_loop].
  destruct (utf8_step (b :: s)) as [|ch rest|reason rest] eqn:Hstep.
  - reflexivity.
  - apply utf8_step_char in Hstep as (block & E & Hne & _).
    apply (f_equal (@length byte)) in E. rewrite length_app in E. simpl in E.
    assert (0 < length block) by (destruct block; [done|simpl; lia]).
    by rewrite (utf8_decode_loop_rounds errors (length s) (length rest)) by lia.
  - apply utf8_step_error in Hstep as (block & E & Hne).
    apply (f_equal (@length byte)) in E. rewrite length_app in E. simpl in E.
    assert (0 < length block) by (destruct block; [done|simpl; lia]).
    destruct errors; [done| |];
      by rewrite (utf8_decode_loop_rounds _ (length s) (length rest)) by lia.
Qed.

(** With [errors="ignore"] the decoder returns the strict decoding of the
    input with some bytes left out. *)
Lemma decode_ignore_drops_bytes n : ∀ s,
  length s ≤ n →
  ∃ text kept,
    decode_utf8 Ignore s = Return text
    ∧ kept `sublist_of` s
    ∧ decode_utf8 Strict kept = Return text.
Proof.
  induction n as [|n IH]; intros s Hlen.
  - destruct s; [|simpl in Hlen; lia]. by exists [], [].
  - rewrite decode_utf8_unfold.
    destruct (utf8_step s) as [|ch rest|reason rest] eqn:Hstep.
    + apply utf8_step_end in Hstep as ->. by exists [], [].
    + apply utf8_step_char in Hstep as (block & -> & Hne & Hblock).
      rewrite length_app in Hlen.
      assert (0 < length block) by (destruct block; [done|simpl; lia]).
      destruct (IH rest) as (text & kept & Ht & Hsub & Hstrict); [lia|].
      exists (ch :: text), (block ++ kept). rewrite Ht. split; [done|].
      split; [by apply sublist_app|].
      rewrite decode_utf8_unfold, Hblock, Hstrict. done.
    + apply utf8_step_error in Hstep as (block & -> & Hne).
      rewrite length_app in Hlen.
      assert (0 < length block) by (destruct block; [done|simpl; lia]).
      destruct (IH rest) as (text & kept & Ht & Hsub & Hstrict); [lia|].
      exists text, kept. split; [done|]. split; [|done].
      by apply sublist_inserts_l.
Qed.

(** Where the strict decoder succeeds, [errors="ignore"] changes nothing. *)
Lemma decode_ignore_of_strict n : ∀ s text,
  length s ≤ n →
  decode_utf8 Strict s = Return text → decode_utf8 Ignore s = Return text.
Proof.
  induction n as [|n IH]; intros s text Hlen.
  - destruct s; [|simpl in Hlen; lia]. done.
  - rewrite !(decode_utf8_unfold _ s).
    destruct (utf8_step s) as [|ch rest|reason rest] eqn:Hstep; [done| |done].
    apply utf8_step_char in Hstep as (block & -> & Hne & _).
    rewrite length_app in Hlen.
    assert (0 < length block) by (destruct block; [done|simpl; lia]).
    destruct (decode_utf8 Strict rest) as [t|e] eqn:Hrest; [|done].
    rewrite (IH rest t) by (lia || done). done.
Qed.

Lemma byte_to_N_bound b : (Byte.to_N b < 256)%N.
Proof. by destruct b. Qed.

Lemma is_continuation_range c :
  is_continuation c = true → (128 <= c < 192)%N.
Proof.
  unfold is_continuation. intros H. apply andb_true_iff in H as [H1 H2].
  apply N.leb_le in H1. apply N.ltb_lt in H2. lia.
Qed.

(** Turns the tests passed on the way to a decoded code point into
    inequalities. *)
Ltac byte_facts :=
  repeat match goal with
         | H : negb _ = false |- _ => apply negb_false_iff in H
         | H : (_ || _) = false |- _ => apply orb_false_iff in H as [? ?]
         | H : is_continuation _ = true |- _ => apply is_continuation_range in H
         | H : (_ <? _)%N = true |- _ => apply N.ltb_lt in H
         | H : (_ <? _)%N = false |- _ => apply N.ltb_ge in H
         | H : (_ =? _)%N = true |- _ => apply N.eqb_eq in H
         | H : (_ =? _)%N = false |- _ => apply N.eqb_neq in H
         end.

Lemma utf8_step_scalar s ch rest :
  utf8_step s = StepChar ch rest → scalar_value ch.
Proof.
  unfold utf8_step, scalar_value. intros H.
  repeat case_match; simplify_eq; byte_facts;
    rewrite ?N.shiftl_mul_pow2;
    change (2 ^ 6)%N with 64%N; change (2 ^ 12)%N with 4096%N;
    change (2 ^ 18)%N with 262144%N;
    repeat match goal with
           | b : byte |- _ =>
               pose proof (byte_to_N_bound b); generalize dependent (Byte.to_N b);
               clear b; intros
           end;
    lia.
Qed.

Lemma to_N_byte_of_N n : (n < 256)%N → Byte.to_N (byte_of_N n) = n.
Proof.
  intros Hn. unfold byte_of_N.
  destruct (Byte.of_N n) as [b|] eqn:E.
  - by apply Byte.to_of_N.
  - apply Byte.of_N_None_iff in E. lia.
Qed.

Lemma byte_of_N_to_N b : byte_of_N (Byte.to_N b) = b.
Proof. unfold byte_of_N. by rewrite Byte.of_to_N. Qed.

Ltac bool_facts :=
  repeat match goal with
         | H : (_ && _) = true |- _ => apply andb_true_iff in H as [? ?]
         | H : (_ && _) = false |- _ => apply andb_false_iff in H as [?|?]
         | H : (_ <=? _)%N = true |- _ => apply N.leb_le in H
         | H : (_ <=? _)%N = false |- _ => apply N.leb_gt in H
         | H : negb _ = true |- _ => apply negb_true_iff in H
         | H : (_ || _) = true |- _ => apply orb_true_iff in H as [?|?]
         end; byte_facts.

Section Encoding.
#[local] Ltac Zify.zify_post_hook ::= Z.to_euclidean_division_equations.

(** The decoder reads back the encoding of a scalar value. *)
Lemma utf8_step_encode c r :
  scalar_value c → utf8_step (utf8_encode c ++ r) = StepChar c r.
Proof.
  intros [Hmax Hsur]. unfold utf8_encode.
  repeat case_match; byte_facts; simpl app; unfold utf8_step; cbv zeta;
    rewrite !to_N_byte_of_N by lia;
    unfold is_continuation;
    rewrite ?N.shiftl_mul_pow2;
    change (2 ^ 6)%N with 64%N; change (2 ^ 12)%N with 4096%N;
    change (2 ^ 18)%N with 262144%N;
    repeat (case_match; bool_facts; try lia).
  all: f_equal; lia.
Qed.

(** The bytes the decoder reads for a code point are its encoding. *)
Lemma utf8_step_char_encode s c rest :
  utf8_step s = StepChar c rest → s = utf8_encode c ++ rest.
Proof.
  unfold utf8_step. intros H.
  repeat case_match; simplify_eq; byte_facts;
    repeat match goal with
           | b : byte |- _ =>
               let E := fresh "E" in
               pose proof (byte_to_N_bound b);
               pose proof (byte_of_N_to_N b) as E;
               generalize dependent (Byte.to_N b); intros; subst b
           end;
    rewrite ?N.shiftl_mul_pow2 in *;
    change (2 ^ 6)%N with 64%N in *; change (2 ^ 12)%N with 4096%N in *;
    change (2 ^ 18)%N with 262144%N in *;
    unfold utf8_encode;
    repeat (case_match; bool_facts; try lia);
    simpl app; repeat f_equal; lia.
Qed.

End Encoding.

(** Where the decoder reports an error, no encoding starts. *)
Lemma utf8_step_error_no_encoding s reason rest c :
  utf8_step s = StepError reason rest →
  scalar_value c → ¬ utf8_encode c `prefix_of` s.
Proof.
  intros Hstep Hc [r ->]. by rewrite utf8_step_encode in Hstep.
Qed.

Lemma continuation_starts_nothing b r :
  is_continuation (Byte.to_N b) = true →
  utf8_step (b :: r) = StepError InvalidStartByte r.
Proof.
  intros Hb. apply is_continuation_range in Hb. unfold utf8_step. cbv zeta.
  rewrite (proj2 (N.ltb_ge _ _)) by lia.
  by rewrite (proj2 (N.ltb_lt _ 194)) by lia.
Qed.

(** The bytes passed over at an error: the byte at which it is reported
    and the continuation bytes read after it. *)
Lemma utf8_step_error_block s reason rest :
  utf8_step s = StepError reason rest →
  ∃ b tail, s = b :: tail ++ rest
            ∧ Forall (fun x => is_continuation (Byte.to_N x) = true) tail.
Proof.
  unfold utf8_step. intros H.
  repeat case_match; simplify_eq;
    repeat match goal with
           | H : (_ || _) = false |- _ => apply orb_false_iff in H as [? ?]
           | H : negb _ = false |- _ => apply negb_false_iff in H
           end;
    first
      [ by eexists _, []
      | eexists _, [_]; split; [reflexivity|]; by repeat constructor
      | eexists _, [_; _]; split; [reflexivity|]; by repeat constructor ].
Qed.

Lemma decode_skips_continuations tail : ∀ r,
  Forall (fun x => is_continuation (Byte.to_N x) = true) tail →
  decode_utf8 Ignore (tail ++ r) = decode_utf8 Ignore r.
Proof.
  induction tail as [|b tail IH]; intros r Htail; [done|].
  inversion Htail as [|? ? Hb Htail']; subst. simpl app.
  rewrite decode_utf8_unfold, continuation_starts_nothing by done.
  by apply IH.
Qed.

Lemma drops_skips_continuations tail : ∀ r text,
  Forall (fun x => is_continuation (Byte.to_N x) = true) tail →
  drops_invalid r text → drops_invalid (tail ++ r) text.
Proof.
  induction tail as [|b tail IH]; intros r text Htail Hr; [done|].
  inversion Htail as [|? ? Hb Htail']; subst. simpl app.
  apply drops_skip; [|by apply IH].
  intros c Hc. eapply utf8_step_error_no_encoding; [|done].
  by apply continuation_starts_nothing.
Qed.

(** What [errors="ignore"] returns is the text with the invalid bytes
    left out. *)
Lemma decode_ignore_drops_invalid n : ∀ s text,
  length s ≤ n →
  decode_utf8 Ignore s = Return text → drops_invalid s text.
Proof.
  induction n as [|n IH]; intros s text Hlen.
  - destruct s; [|simpl in Hlen; lia]. intros [= <-]. constructor.
  - rewrite decode_utf8_unfold.
    destruct (utf8_step s) as [|ch rest|reason rest] eqn:Hstep.
    + apply utf8_step_end in Hstep as ->. intros [= <-]. constructor.
    + pose proof (utf8_step_scalar _ _ _ Hstep) as Hch.
      pose proof (utf8_step_char_encode _ _ _ Hstep) as ->.
      apply utf8_step_char in Hstep as (block & E & Hne & _).
      apply (f_equal (@length byte)) in E. rewrite !length_app in *.
      assert (0 < length block) by (destruct block; [done|simpl; lia]).
      destruct (decode_utf8 Ignore rest) as [t|e] eqn:Hrest; [|done].
      intros [= <-]. apply drops_keep; [done|]. apply IH; [lia|done].
    + intros Hrest.
      pose proof (utf8_step_error_block _ _ _ Hstep) as (b & tail & -> & Htail).
      apply drops_skip.
      * intros c Hc. by eapply utf8_step_error_no_encoding.
      * apply drops_skips_continuations; [done|].
        apply IH; [|done]. simpl in Hlen. rewrite length_app in Hlen. lia.
Qed.

Lemma drops_invalid_decode_ignore s text :
  drops_invalid s text → decode_utf8 Ignore s = Return text.
Proof.
  induction 1 as [|c rest text Hc _ IH|b rest text Hb _ IH].
  - reflexivity.
  - by rewrite decode_utf8_unfold, utf8_step_encode, IH.
  - rewrite decode_utf8_unfold.
    destruct (utf8_step (b :: rest)) as [|ch rest'|reason rest'] eqn:Hstep.
    + by apply utf8_step_end in Hstep.
    + exfalso. apply (Hb ch); [by eapply utf8_step_scalar|].
      rewrite (utf8_step_char_encode _ _ _ Hstep). by exists rest'.
    + pose proof (utf8_step_error_block _ _ _ Hstep)
        as (b' & tail & [= <- ->] & Htail).
      by rewrite decode_skips_continuations in IH.
Qed.

(** C7 as stated fails: a byte that starts no sequence is left out, not
    replaced; with replacement the text would be one code point U+FFFD. *)
Lemma invalid_byte_is_dropped_not_replaced :
  _extract_md [xff] = Return []
  ∧ decode_utf8 Replace [xff] = Return [65533%N]
  ∧ _extract_md [xff] ≠ decode_utf8 Replace [xff].
Proof. split; [reflexivity|]. split; [reflexivity|]. discriminate. Qed.

(** C7 (amended). Markdown extraction never raises: for every byte
    sequence it returns the text of the input with the invalid bytes left
    out, reading from the left: every well-formed sequence gives its code
    point, and a byte is left out exactly where no well-formed sequence
    starts.  The result is the strict UTF-8 decoding of the bytes that are
    kept, and where the input is valid UTF-8 it is its decoding. *)
Theorem extract_md_drops_invalid_bytes (file_bytes : bytes) :
  (∃ text, _extract_md file_bytes = Return text)
  ∧ (∀ text, _extract_md file_bytes = Return text
             ↔ drops_invalid file_bytes text)
  ∧ (∃ text kept,
       _extract_md file_bytes = Return text
       ∧ kept `sublist_of` file_bytes
       ∧ decode_utf8 Strict kept = Return text)
  ∧ (∀ text, decode_utf8 Strict file_bytes = Return text →
       _extract_md file_bytes = Return text).
Proof.
  pose proof (decode_ignore_drops_bytes (length file_bytes) file_bytes
                (le_n _)) as (text & kept & Htext & Hkept & Hstrict).
  split; [by exists text|]. split; [|split].
  - intros text'. split.
    + by apply (decode_ignore_drops_invalid (length file_bytes)).
    + apply drops_invalid_decode_ignore.
  - by exists text, kept.
  - intros text'. by apply (decode_ignore_of_strict (length file_bytes)).
Qed.

Lemma extract_md_drops_invalid_bytes_witness :
  _extract_md [x61; x62; xff; x63; x64] = Return (py "abcd")
  ∧ drops_invalid [x61; x62; xff; x63; x64] (py "abcd").
Proof.
  assert (H : _extract_md [x61; x62; xff; x63; x64] = Return (py "abcd"))
    by reflexivity.
  split; [exact H|].
  exact (proj1 (proj1 (proj2
    (extract_md_drops_invalid_bytes [x61; x62; xff; x63; x64])) (py "abcd")) H).
Defined.

(** ** IngestionOrchestrator *)

Section Pipeline.
Context {U : UnicodeData} {Store : Type} (P : Parsers) (S : Services Store).

(** The fetch fails on a transport failure and on a status other than 200. *)
Lemma fetch_body_raise url e :
  fetch_body S url = Raise e ↔
  requests_get S url = Raise e
  ∨ ∃ r, requests_get S url = Return r ∧ status_code r ≠ 200%Z
         ∧ e = HTTPException 400
                 (py "Failed to fetch document: HTTP " ++ py_str_int (status_code r)).
Proof.
  unfold fetch_body. destruct (requests_get S url) as [r|e0]; simpl.
  - destruct (status_code r =? 200)%Z eqn:Hs; simpl.
    + apply Z.eqb_eq in Hs. split; [done|].
      intros [?|(r' & [= <-] & Hne & _)]; done.
    + apply Z.eqb_neq in Hs. split.
      * intros [= <-]. right. by exists r.
      * intros [?|(r' & [= <-] & _ & ->)]; done.
  - split; [intros [= ->]; by left|].
    intros [[= ->]|(r & ? & _)]; done.
Qed.

Lemma str_eqb_false (a b : list N) : a ≠ b → str_eqb a b = false.
Proof. intros Hne. unfold str_eqb. by apply bool_decide_eq_false. Qed.

(** A tag outside the four recognised ones is rejected by the dispatch. *)
Lemma extract_body_unsupported fmt content :
  fmt ∉ supported_formats →
  extract_body P fmt content
  = Raise (HTTPException 400 (py "Unsupported format: " ++ fmt)).
Proof.
  intros Hfmt. unfold extract_body.
  rewrite !str_eqb_false; [done|intros ->; apply Hfmt..].
  - do 3 right; left.
  - do 2 right; left.
  - right; left.
  - left.
Qed.

End Pipeline.

(** Closes the side cases of a run: a call list that holds no create, a
    tag that the dispatch accepted, a count of calls. *)
Ltac close_case :=
  try reflexivity;
  try (simpl; lia);
  try congruence;
  try (exfalso; congruence);
  try match goal with
      | H : CallCreate _ _ ∈ [CallGet _] |- _ =>
          by apply list_elem_of_singleton in H
      | Hext : extract_body _ ?fmt _ = _, Hfmt : ?fmt ∉ supported_formats |- _ =>
          rewrite extract_body_unsupported in Hext by done; by simplify_eq
      end.

(** C8 as stated fails for a failing create: the pipeline has no rollback,
    so when create writes the record and then fails, the caller gets the
    500 and the store holds the record. *)
Lemma failed_create_can_leave_a_record :
  match
    ingest_manuscript (U:=ascii_data) no_parsers
      (leaky_services (ok_reply scenario_bytes)) md_request []
  with
  | (Raise (HTTPException 500 _), st', _) => st' ≠ []
  | _ => False
  end.
Proof. vm_compute. discriminate. Qed.

(** C8 (amended). Whatever stage fails, the caller gets the classified
    error of that stage: a transport failure or a status other than 200
    gives a 400 fetch error; an unsupported tag gives a 400; a failing
    extractor gives a 500 (or the HTTP error it raised); a failing create
    gives a 500.  When the fetch, the dispatch or the extraction fails,
    create is not called and the store is left as it was.  Create is
    called at most once, and only after fetch and extraction succeeded;
    the store then is the one that call left, also when it failed. *)
Theorem failed_stage_surfaces_error_before_create `{U : UnicodeData} {Store : Type}
    (P : Parsers) (S : Services Store) (req : IngestRequest)
    (st st' : Store) (res : result IngestResponse) (calls : list Call) :
  ingest_manuscript P S req st = (res, st', calls) →
  let url := source_url req in
  let fmt := _infer_format url (format req) in
  (∀ e0, requests_get S url = Raise e0 →
     res = Raise (HTTPException 400 (py "Error fetching document: " ++ exn_str S e0))
     ∧ st' = st ∧ calls = [CallGet url])
  ∧ (∀ r, requests_get S url = Return r → status_code r ≠ 200%Z →
       res = Raise (HTTPException 400
                      (py "Error fetching document: "
                       ++ exn_str S (HTTPException 400
                            (py "Failed to fetch document: HTTP "
                             ++ py_str_int (status_code r)))))
       ∧ st' = st ∧ calls = [CallGet url])
  ∧ (∀ r, requests_get S url = Return r → status_code r = 200%Z →
       (fmt ∉ supported_formats →
          res = Raise (HTTPException 400 (py "Unsupported format: " ++ fmt))
          ∧ st' = st ∧ calls = [CallGet url])
       ∧ (∀ e0, extract_body P fmt (content r) = Raise e0 →
            res = Raise (surfaced_extraction_error S fmt e0)
            ∧ st' = st ∧ calls = [CallGet url])
       ∧ (∀ full_text, extract_body P fmt (content r) = Return full_text →
            ∃ m, calls = [CallGet url; CallCreate (py "manuscript") m]
                 ∧ st' = (create_document S (py "manuscript") m st).2
                 ∧ ∀ e0 st1,
                     create_document S (py "manuscript") m st = (Raise e0, st1) →
                     res = Raise (HTTPException 500
                                    (py "Failed to save manuscript: " ++ exn_str S e0))))
  ∧ (∀ e, res = Raise e → ∃ status detail, e = HTTPException status detail)
  ∧ length (List.filter is_create calls) ≤ 1
  ∧ (∀ collection m, CallCreate collection m ∈ calls →
       ∃ r full_text, requests_get S url = Return r ∧ status_code r = 200%Z
                      ∧ extract_body P fmt (content r) = Return full_text)
  ∧ ((∀ collection m, CallCreate collection m ∉ calls) → st' = st).
Proof.
  intros Hrun url fmt.
  unfold ingest_manuscript, fetch_body in Hrun. fold url fmt in Hrun.
  destruct (requests_get S url) as [r|e0] eqn:Hget; simpl in Hrun.
  2:{ simplify_eq. repeat split; intros; simplify_eq; eauto; close_case. }
  destruct (status_code r =? 200)%Z eqn:Hs; simpl in Hrun.
  2:{ apply Z.eqb_neq in Hs. simplify_eq.
      repeat split; intros; simplify_eq; eauto; close_case. }
  apply Z.eqb_eq in Hs.
  destruct (extract_body P fmt (content r)) as [full_text|e1] eqn:Hext.
  2:{ assert (res = Raise (surfaced_extraction_error S fmt e1)
              ∧ st' = st ∧ calls = [CallGet url]) as (-> & -> & ->).
      { destruct e1 as [what|reason|c d]; by simplify_eq. }
      repeat split; intros; simplify_eq; eauto; close_case.
      destruct e1; simpl in *; simplify_eq; eauto. }
  cbv zeta in Hrun.
  match type of Hrun with
  | context [create_document S _ ?m st] => set (record := m) in *
  end.
  assert (∀ Q : Prop, (∀ collection m, CallCreate collection m ∉
            [CallGet url; CallCreate (py "manuscript") record]) → Q) as Hcalled.
  { intros Q Hnone. exfalso. apply (Hnone (py "manuscript") record).
    apply list_elem_of_further, list_elem_of_here. }
  destruct (create_document S (py "manuscript") record st) as [[doc_id|e2] st2]
    eqn:Hcreate; simplify_eq.
  - repeat split; intros; simplify_eq; eauto; close_case;
      try (by eapply Hcalled).
    exists record. rewrite Hcreate. split; [done|]. split; [done|].
    intros; congruence.
  - repeat split; intros; simplify_eq; eauto; close_case;
      try (by eapply Hcalled).
    exists record. rewrite Hcreate. split; [done|]. split; [done|].
    intros e0 st1 Hfail. assert (e0 = e2) as -> by congruence. reflexivity.
Qed.

Lemma failed_stage_surfaces_error_before_create_witness :
  ∃ detail record,
    ingest_manuscript (U:=ascii_data) no_parsers
      (memory_services 0 (ok_reply scenario_bytes)) md_request []
    = (Raise (HTTPException 500 detail), [],
       [CallGet (source_url md_request); CallCreate (py "manuscript") record])
    ∧ length (List.filter is_create
                [CallGet (source_url md_request);
                 CallCreate (py "manuscript") record]) ≤ 1.
Proof.
  do 2 eexists. split; [vm_compute; reflexivity|].
  refine (proj1 (proj2 (proj2 (proj2 (proj2
    (failed_stage_surfaces_error_before_create (U:=ascii_data) no_parsers
       (memory_services 0 (ok_reply scenario_bytes)) md_request [] [] _ _
       _)))))).
  vm_compute. reflexivity.
Defined.

(** C1. The record handed to the store carries as [word_count] the number
    of white-space-delimited tokens of the whole extracted text, whatever
    the extractor; the sample is cut from the same tokens and holds the
    first 1200 of them at most, and the response repeats the count. *)
Theorem persisted_word_count_counts_tokens `{U : UnicodeData} {Store : Type}
    (P : Parsers) (S : Services Store) (req : IngestRequest)
    (st st' : Store) (res : result IngestResponse) (calls : list Call) :
  ingest_manuscript P S req st = (res, st', calls) →
  let url := source_url req in
  let fmt := _infer_format url (format req) in
  (∀ collection m, CallCreate collection m ∈ calls →
     ∃ r full_text,
       requests_get S url = Return r
       ∧ extract_body P fmt (content r) = Return full_text
       ∧ m_word_count m = length (py_split full_text)
       ∧ m_sample_text m = or_none str_truthy (_make_sample full_text)
       ∧ py_split (_make_sample full_text) = take 1200 (py_split full_text))
  ∧ (∀ resp, res = Return resp →
       ∃ m, calls = [CallGet url; CallCreate (py "manuscript") m]
            ∧ r_word_count resp = m_word_count m).
Proof.
  intros Hrun url fmt.
  unfold ingest_manuscript, fetch_body in Hrun. fold url fmt in Hrun.
  destruct (requests_get S url) as [r|e0] eqn:Hget; simpl in Hrun.
  2:{ simplify_eq. split; [intros; close_case | done]. }
  destruct (status_code r =? 200)%Z eqn:Hs; simpl in Hrun.
  2:{ simplify_eq. split; [intros; close_case | done]. }
  destruct (extract_body P fmt (content r)) as [full_text|e1] eqn:Hext.
  2:{ assert (calls = [CallGet url] ∧ ∃ e, res = Raise e) as (-> & e & ->).
      { destruct e1 as [what|reason|c d]; simplify_eq; eauto. }
      split; [intros; close_case | done]. }
  cbv zeta in Hrun.
  match type of Hrun with
  | context [create_document S _ ?m st] => set (record := m) in *
  end.
  assert (∀ collection m, CallCreate collection m ∈
            [CallGet url; CallCreate (py "manuscript") record] → m = record)
    as Honly.
  { intros collection m Hin.
    apply elem_of_cons in Hin as [Hin|Hin]; [done|].
    apply list_elem_of_singleton in Hin. by simplify_eq. }
  destruct (create_document S (py "manuscript") record st) as [[doc_id|e2] st2]
    eqn:Hcreate; simplify_eq.
  - split.
    + intros collection m Hin. apply Honly in Hin as ->.
      exists r, full_text. by rewrite split_make_sample.
    + intros resp [= <-]. by exists record.
  - split; [|done].
    intros collection m Hin. apply Honly in Hin as ->.
    exists r, full_text. by rewrite split_make_sample.
Qed.

(** With 1201 words in the document the count is 1201: it is not taken
    from the sample. *)
Lemma persisted_word_count_counts_tokens_witness :
  ∃ res st' calls m,
    ingest_manuscript (U:=ascii_data) no_parsers
      (memory_services 1 (ok_reply long_bytes)) md_request []
    = (res, st', calls)
    ∧ calls = [CallGet (source_url md_request); CallCreate (py "manuscript") m]
    ∧ m_word_count m = 1201
    ∧ r_word_count <$> (match res with Return r => Some r | Raise _ => None end)
      = Some (m_word_count m).
Proof.
  destruct (ingest_manuscript (U:=ascii_data) no_parsers
              (memory_services 1 (ok_reply long_bytes)) md_request [])
    as [[res st'] calls] eqn:Hrun.
  pose proof (persisted_word_count_counts_tokens _ _ _ _ _ _ _ Hrun)
    as [Hrecord Hresp].
  vm_compute in Hrun. injection Hrun as <- <- <-.
  destruct (Hresp _ eq_refl) as (m & Hcalls & Hcount).
  do 3 eexists. exists m. split; [reflexivity|]. split; [exact Hcalls|].
  split; [|by rewrite <- Hcount].
  injection Hcalls as <-. reflexivity.
Defined.

(** ** The Markdown scenario *)

Lemma py_lower_md `{U : UnicodeData} : AsciiAgree U → py_lower (py "md") = py "md".
Proof.
  intros HU. change (py "md") with [109%N; 100%N].
  unfold py_lower. cbn [lower_from]. unfold lower_ucs4.
  change (109 =? 931)%N with false. change (100 =? 931)%N with false.
  rewrite !(agree_tolower U HU) by lia. reflexivity.
Qed.

Lemma extract_md_scenario : _extract_md scenario_bytes = Return scenario_text.
Proof. vm_compute. reflexivity. Qed.

Lemma scenario_tokens :
  py_split scenario_text
  = [py "#"; py "Title"; py "Hello"; py "world"; py "foo"].
Proof. vm_compute. reflexivity. Qed.

(** C9 as stated fails: for the bytes of the scenario the pipeline counts
    five tokens, the [#] among them, not four. *)
Lemma scenario_word_count_is_not_4 :
  response_word_count
    (ingest_manuscript (U:=ascii_data) no_parsers
       (memory_services 1 (ok_reply scenario_bytes)) md_request [])
  ≠ Some 4.
Proof. vm_compute. discriminate. Qed.

(** C9 (amended). With the hint [md] and the content
    [# Title], blank line, [Hello world foo], the word count of the
    pipeline is 5: the tokens are split on white space alone, so [#]
    counts as one. *)
Theorem scenario_word_count_is_5 `{U : UnicodeData} {Store : Type}
    (P : Parsers) (S : Services Store) (req : IngestRequest)
    (st st' : Store) (res : result IngestResponse) (calls : list Call) :
  AsciiAgree U →
  format req = Some (py "md") →
  requests_get S (source_url req) = ok_reply scenario_bytes →
  ingest_manuscript P S req st = (res, st', calls) →
  (∃ m, calls = [CallGet (source_url req); CallCreate (py "manuscript") m]
        ∧ m_format m = py "md" ∧ m_word_count m = 5)
  ∧ (∀ resp, res = Return resp → r_word_count resp = 5).
Proof.
  intros HU Hfmt Hget Hrun.
  unfold ingest_manuscript, fetch_body in Hrun.
  rewrite Hget, Hfmt in Hrun. unfold ok_reply in Hrun.
  change (_infer_format (source_url req) (Some (py "md")))
    with (py_lower (py "md")) in Hrun.
  rewrite (py_lower_md HU) in Hrun.
  cbn [result_bind status_code content] in Hrun.
  change (negb (200 =? 200)%Z) with false in Hrun. cbv iota in Hrun.
  change (extract_body P (py "md") scenario_bytes)
    with (_extract_md scenario_bytes) in Hrun.
  rewrite extract_md_scenario in Hrun. cbv zeta in Hrun.
  rewrite scenario_tokens in Hrun.
  change (length [py "#"; py "Title"; py "Hello"; py "world"; py "foo"])
    with 5 in Hrun.
  destruct (create_document S _ _ st) as [[doc_id|e] st1]; simplify_eq.
  - split; [by eexists|]. by intros resp [= <-].
  - split; [by eexists|]. done.
Qed.

Lemma scenario_word_count_is_5_witness :
  AsciiAgree ascii_data
  ∧ format md_request = Some (py "md")
  ∧ response_word_count
      (ingest_manuscript (U:=ascii_data) no_parsers
         (memory_services 1 (ok_reply scenario_bytes)) md_request [])
    = Some 5.
Proof.
  split; [constructor; reflexivity|]. split; [reflexivity|].
  destruct (ingest_manuscript (U:=ascii_data) no_parsers
              (memory_services 1 (ok_reply scenario_bytes)) md_request [])
    as [[res st'] calls] eqn:Hrun.
  pose proof (scenario_word_count_is_5 (U:=ascii_data) no_parsers
                (memory_services 1 (ok_reply scenario_bytes)) md_request
                [] st' res calls ltac:(constructor; reflexivity)
                eq_refl eq_refl Hrun) as [_ Hresp].
  destruct res as [resp|e]; simpl.
  - by rewrite (Hresp resp eq_refl).
  - vm_compute in Hrun. discriminate.
Defined.

(** * Further properties of the code *)

(** ** SampleBuilder: normal form, idempotence, length *)

(** X1. The sample is in normal form: it neither starts nor ends with
    white space and it is the single-space join of its own tokens. *)
Theorem sample_is_normalised (full_text : str) :
  let sample := _make_sample full_text in
  tight sample ∧ tight (rev sample)
  ∧ py_join (py " ") (py_split sample) = sample.
Proof.
  cbv zeta.
  pose proof (take_tokens 1200 _ (py_split_tokens full_text)) as Htok.
  rewrite split_make_sample. rewrite make_sample_join.
  destruct (join_tokens_tight _ Htok) as [H1 H2]. done.
Qed.

(** X2. Building the sample of a sample changes nothing. *)
Theorem make_sample_idempotent (full_text : str) :
  _make_sample (_make_sample full_text) = _make_sample full_text.
Proof.
  rewrite (make_sample_join (_make_sample full_text)), split_make_sample.
  rewrite take_take, Nat.min_id. symmetry. apply make_sample_join.
Qed.

Lemma join_space_cons w ws :
  length (py_join (py " ") (w :: ws))
  = length w + match ws with
               | [] => 0
               | _ => 1 + length (py_join (py " ") ws)
               end.
Proof.
  destruct ws as [|w' ws]; [simpl; lia|].
  change (py_join (py " ") (w :: w' :: ws))
    with (w ++ py " " ++ py_join (py " ") (w' :: ws)).
  rewrite !length_app. reflexivity.
Qed.

Lemma join_space_flush w out :
  length (py_join (py " ") (flush w out))
  ≤ length w + 1 + length (py_join (py " ") out).
Proof.
  destruct w as [|c w]; [simpl; lia|].
  change (flush (c :: w) out) with ((c :: w) :: out).
  rewrite join_space_cons. destruct out; lia.
Qed.

Lemma join_split_from_length s : ∀ w,
  length (py_join (py " ") (split_from w s)) ≤ length w + length s.
Proof.
  induction s as [|c s IH]; intros w.
  - simpl. destruct w; simpl; lia.
  - cbn [split_from]. destruct (isspace c).
    + destruct w as [|x w]; [specialize (IH []); simpl in *; lia|].
      change (flush (x :: w) (split_from [] s)) with ((x :: w) :: split_from [] s).
      rewrite join_space_cons. specialize (IH []).
      destruct (split_from [] s); simpl in *; lia.
    + specialize (IH (w ++ [c])). rewrite length_app in IH. simpl in *. lia.
Qed.

Lemma join_take_length n : ∀ ws,
  length (py_join (py " ") (take n ws)) ≤ length (py_join (py " ") ws).
Proof.
  induction n as [|n IH]; intros ws; [simpl; lia|].
  destruct ws as [|w ws]; [done|].
  change (take (S n) (w :: ws)) with (w :: take n ws).
  rewrite !join_space_cons. specialize (IH ws).
  destruct ws as [|w' ws]; [by rewrite take_nil|].
  destruct (take n (w' :: ws)); lia.
Qed.

(** X3. The sample is never longer than the text it is taken from. *)
Theorem sample_not_longer_than_text (full_text : str) :
  length (_make_sample full_text) ≤ length full_text.
Proof.
  rewrite make_sample_join.
  etrans; [apply join_take_length|].
  etrans; [apply (join_split_from_length full_text [])|]. done.
Qed.

(** X4. A text of at most 1200 words keeps all its words in the sample,
    in order. *)
Theorem short_text_sample_keeps_all_words (full_text : str) :
  length (py_split full_text) ≤ 1200 →
  py_split (_make_sample full_text) = py_split full_text.
Proof. intros Hlen. rewrite split_make_sample. by apply take_ge. Qed.

Lemma short_text_sample_keeps_all_words_witness :
  length (py_split scenario_text) ≤ 1200
  ∧ py_split (_make_sample scenario_text) = py_split scenario_text.
Proof.
  assert (H : length (py_split scenario_text) ≤ 1200).
  { vm_compute. lia. }
  split; [exact H|]. exact (short_text_sample_keeps_all_words scenario_text H).
Defined.

(** ** TocHeuristic: what the entries are, and what is left out *)

Lemma py_lstrip_is_tight s : tight (py_lstrip s).
Proof.
  induction s as [|c s IH]; simpl; [done|].
  destruct (isspace c) eqn:Hc; [exact IH | exact Hc].
Qed.

Lemma py_lstrip_snoc a c :
  isspace c = false → ∃ x, py_lstrip (a ++ [c]) = x ++ [c].
Proof.
  intros Hc. induction a as [|d a IH]; simpl.
  - rewrite Hc. by exists [].
  - destruct (isspace d); [exact IH|]. by exists (d :: a).
Qed.

Lemma py_strip_is_tight s : tight (py_strip s) ∧ tight (rev (py_strip s)).
Proof.
  unfold py_strip, py_rstrip. split.
  - pose proof (py_lstrip_is_tight s) as Ht.
    destruct (py_lstrip s) as [|c r]; [done|]. simpl in Ht.
    change (rev (c :: r)) with (rev r ++ [c]).
    destruct (py_lstrip_snoc (rev r) c Ht) as [x ->].
    rewrite rev_app_distr. exact Ht.
  - rewrite rev_involutive. apply py_lstrip_is_tight.
Qed.

Lemma py_strip_idempotent s : py_strip (py_strip s) = py_strip s.
Proof. destruct (py_strip_is_tight s). by apply py_strip_tight. Qed.

Lemma trimmed_lines_elem full_text x :
  x ∈ trimmed_lines full_text → x ≠ [] ∧ py_strip x = x.
Proof.
  unfold trimmed_lines. intros Hx.
  apply list_elem_of_In, filter_In in Hx as [Hx Hne].
  apply in_map_iff in Hx as (l & <- & _).
  split; [|apply py_strip_idempotent].
  intros E. by rewrite E in Hne.
Qed.

Lemma heading_like_bounds `{U : UnicodeData} l :
  heading_like l = true →
  3 ≤ length l ≤ 80 ∧ endswith_any l [py "."; py "!"; py "?"] = false.
Proof.
  unfold heading_like. intros H.
  destruct (length l <=? 80) eqn:H80; [|done].
  rewrite andb_true_l in H.
  destruct (py_isupper l || re_match_heading (py_lower l)
            || (length (py_split l) <=? 6)); [|done].
  apply andb_true_iff in H as [H3 Hend].
  apply Nat.leb_le in H3, H80. apply negb_true_iff in Hend. done.
Qed.

Lemma toc_candidates_elem `{U : UnicodeData} full_text x :
  x ∈ toc_candidates full_text →
  x ∈ take 800 (trimmed_lines full_text) ∧ heading_like x = true.
Proof.
  rewrite toc_candidates_take, toc_lines_trimmed. intros Hx.
  apply elem_of_take in Hx as (i & Hx & _).
  apply list_elem_of_lookup_2, list_elem_of_In, filter_In in Hx as [Hx Hq].
  split; [by apply list_elem_of_In | done].
Qed.

(** X5. Every entry of the table of contents is one of the first 800
    non-empty trimmed lines of the text: it is not empty, has no white
    space at either end, has between 3 and 80 code points, and does not
    end with a full stop, exclamation mark or question mark. *)
Theorem toc_entries_are_short_trimmed_lines `{U : UnicodeData}
    (full_text : str) (x : list N) :
  x ∈ _extract_toc_from_text full_text →
  x ∈ take 800 (trimmed_lines full_text)
  ∧ x ≠ [] ∧ py_strip x = x
  ∧ 3 ≤ length x ≤ 80
  ∧ endswith_any x [py "."; py "!"; py "?"] = false.
Proof.
  unfold _extract_toc_from_text. cbv zeta. intros Hx.
  apply elem_of_take in Hx as (i & Hx & _).
  apply list_elem_of_lookup_2, dedup_loop_elem in Hx as [Hx _].
  apply toc_candidates_elem in Hx as [Hline Hq].
  split; [done|].
  assert (x ∈ trimmed_lines full_text) as Hin.
  { apply elem_of_take in Hline as (j & Hj & _).
    by eapply list_elem_of_lookup_2. }
  destruct (trimmed_lines_elem _ _ Hin) as [Hne Hstrip].
  destruct (heading_like_bounds _ Hq) as [Hlen Hend]. done.
Qed.

Lemma toc_entries_are_short_trimmed_lines_witness :
  py "Part One" ∈ _extract_toc_from_text (U:=ascii_data) repeated_heading_text
  ∧ 3 ≤ length (py "Part One") ≤ 80.
Proof.
  assert (H : py "Part One"
              ∈ _extract_toc_from_text (U:=ascii_data) repeated_heading_text).
  { vm_compute. apply list_elem_of_further, list_elem_of_here. }
  split; [exact H|].
  exact (proj1 (proj2 (proj2 (proj2
    (toc_entries_are_short_trimmed_lines (U:=ascii_data) _ _ H))))).
Defined.

(** X6. A qualifying line among the first 800 is left out of the table of
    contents only when a cap is reached: 30 collected lines, or 20
    entries. *)
Theorem toc_leaves_out_only_at_caps `{U : UnicodeData}
    (full_text : str) (x : list N) :
  x ∈ take 800 (trimmed_lines full_text) →
  heading_like x = true →
  x ∈ _extract_toc_from_text full_text
  ∨ length (toc_candidates full_text) = 30
  ∨ length (_extract_toc_from_text full_text) = 20.
Proof.
  intros Hline Hq.
  set (found := List.filter heading_like (take 800 (trimmed_lines full_text))).
  assert (x ∈ found) as Hfound.
  { apply list_elem_of_In, filter_In. split; [by apply list_elem_of_In|done]. }
  assert (toc_candidates full_text = take 30 found) as Hcand.
  { by rewrite toc_candidates_take, toc_lines_trimmed. }
  destruct (decide (length found ≤ 30)) as [Hfew|Hmany].
  2:{ right; left. rewrite Hcand, length_take. lia. }
  rewrite take_ge in Hcand by done.
  unfold _extract_toc_from_text. cbv zeta. rewrite Hcand.
  set (unique := dedup_loop ∅ [] found).
  assert (x ∈ unique) as Hunique.
  { apply dedup_loop_elem. split; [done|]. apply not_elem_of_empty. }
  destruct (decide (length unique ≤ 20)) as [Hle|Hgt].
  - left. by rewrite take_ge.
  - right; right. rewrite length_take. lia.
Qed.

Lemma toc_leaves_out_only_at_caps_witness :
  py "Part One" ∈ take 800 (trimmed_lines repeated_heading_text)
  ∧ heading_like (U:=ascii_data) (py "Part One") = true
  ∧ (py "Part One" ∈ _extract_toc_from_text (U:=ascii_data) repeated_heading_text
     ∨ length (toc_candidates (U:=ascii_data) repeated_heading_text) = 30
     ∨ length (_extract_toc_from_text (U:=ascii_data) repeated_heading_text) = 20).
Proof.
  assert (H1 : py "Part One" ∈ take 800 (trimmed_lines repeated_heading_text)).
  { vm_compute. apply list_elem_of_further, list_elem_of_here. }
  assert (H2 : heading_like (U:=ascii_data) (py "Part One") = true).
  { vm_compute. reflexivity. }
  split; [exact H1|]. split; [exact H2|].
  exact (toc_leaves_out_only_at_caps (U:=ascii_data) _ _ H1 H2).
Defined.

(** ** FormatDetector and orchestrator: what is persisted *)

Lemma supported_docx : py "docx" ∈ supported_formats.
Proof. apply list_elem_of_here. Qed.

Lemma supported_pdf : py "pdf" ∈ supported_formats.
Proof. apply list_elem_of_further, list_elem_of_here. Qed.

Lemma supported_epub : py "epub" ∈ supported_formats.
Proof. do 2 apply list_elem_of_further. apply list_elem_of_here. Qed.

Lemma supported_md : py "md" ∈ supported_formats.
Proof. do 3 apply list_elem_of_further. apply list_elem_of_here. Qed.

(** X7. Without a hint, or with an empty one, the tag inferred from the
    URL is always one of the four supported formats: only a hint can lead
    to an unsupported tag. *)
Theorem inferred_format_is_supported `{U : UnicodeData} (url : str) (hint : option str) :
  hint = None ∨ hint = Some [] →
  _infer_format url hint ∈ supported_formats.
Proof.
  intros Hhint.
  assert (_infer_format url hint = _infer_format url None) as ->.
  { by destruct Hhint as [->| ->]. }
  unfold _infer_format. cbv zeta.
  repeat match goal with
         | |- context [if ?b then _ else _] => destruct b
         end;
    auto using supported_docx, supported_pdf, supported_epub, supported_md.
Qed.

Lemma inferred_format_is_supported_witness :
  (@None (list N) = None ∨ @None (list N) = Some [])
  ∧ _infer_format (U:=ascii_data) book_pdf_url None ∈ supported_formats.
Proof.
  split; [by left|].
  apply (inferred_format_is_supported (U:=ascii_data) book_pdf_url None).
  by left.
Defined.

Section Persisted.
Context {U : UnicodeData} {Store : Type} (P : Parsers) (S : Services Store).

Lemma extract_body_supported fmt content text :
  extract_body P fmt content = Return text → fmt ∈ supported_formats.
Proof.
  intros Hext. destruct (decide (fmt ∈ supported_formats)) as [|Hno]; [done|].
  by rewrite extract_body_unsupported in Hext.
Qed.

(** Every create call of a run is the one of the analysed text. *)
Lemma ingest_create_inv req st res st' calls collection m :
  ingest_manuscript P S req st = (res, st', calls) →
  CallCreate collection m ∈ calls →
  let fmt := _infer_format (source_url req) (format req) in
  ∃ r full_text,
    requests_get S (source_url req) = Return r
    ∧ extract_body P fmt (content r) = Return full_text
    ∧ collection = py "manuscript"
    ∧ calls = [CallGet (source_url req); CallCreate collection m]
    ∧ (create_document S collection m st).2 = st'
    ∧ m = {| m_source_url := source_url req;
             m_format := fmt;
             m_title := title req;
             m_subtitle := subtitle req;
             m_cover_url := cover_url req;
             m_toc := or_none list_truthy (_extract_toc_from_text full_text);
             m_sample_text := or_none str_truthy (_make_sample full_text);
             m_word_count := length (py_split full_text) |}
    ∧ (∀ resp, res = Return resp →
         create_document S collection m st = (Return (r_id resp), st')
         ∧ resp = {| r_status := py "ok";
                   r_id := r_id resp;
                   r_format := fmt;
                   r_word_count := length (py_split full_text);
                   r_toc := take 10 (_extract_toc_from_text full_text) |}).
Proof.
  intros Hrun Hin fmt.
  unfold ingest_manuscript, fetch_body in Hrun. fold fmt in Hrun.
  destruct (requests_get S (source_url req)) as [r|e0] eqn:Hget; simpl in Hrun.
  2:{ simplify_eq. by apply list_elem_of_singleton in Hin. }
  destruct (status_code r =? 200)%Z eqn:Hs; simpl in Hrun.
  2:{ simplify_eq. by apply list_elem_of_singleton in Hin. }
  destruct (extract_body P fmt (content r)) as [full_text|e1] eqn:Hext.
  2:{ assert (calls = [CallGet (source_url req)]) as ->.
      { destruct e1 as [what|reason|c d]; by simplify_eq. }
      by apply list_elem_of_singleton in Hin. }
  cbv zeta in Hrun.
  match type of Hrun with
  | context [create_document S _ ?rec st] => set (record := rec) in *
  end.
  exists r, full_text.
  destruct (create_document S (py "manuscript") record st) as [[doc_id|e2] st2]
    eqn:Hcreate; simplify_eq;
    apply elem_of_cons in Hin as [Hin|Hin]; try done;
    apply list_elem_of_singleton in Hin; simplify_eq;
    rewrite Hcreate; repeat split; try done.
  all: by simplify_eq.
Qed.

(** A run that returns a response has called create. *)
Lemma ingest_success_calls req st resp st' calls :
  ingest_manuscript P S req st = (Return resp, st', calls) →
  ∃ m, calls = [CallGet (source_url req); CallCreate (py "manuscript") m].
Proof.
  intros Hrun. unfold ingest_manuscript, fetch_body in Hrun.
  destruct (requests_get S (source_url req)) as [r|e0]; simpl in Hrun; [|done].
  destruct (status_code r =? 200)%Z; simpl in Hrun; [|done].
  destruct (extract_body P _ (content r)) as [full_text|e1].
  2:{ destruct e1; done. }
  cbv zeta in Hrun.
  destruct (create_document S _ _ st) as [[doc_id|e2] st2]; simplify_eq.
  by eexists.
Qed.

End Persisted.

(** X8. Whatever is handed to the store goes to the collection
    [manuscript] and carries one of the four supported format tags, the
    tag that was detected; the URL, title, subtitle and cover URL of the
    request are carried over unchanged. *)
Theorem persisted_record_is_well_formed `{U : UnicodeData} {Store : Type}
    (P : Parsers) (S : Services Store) (req : IngestRequest)
    (st st' : Store) (res : result IngestResponse) (calls : list Call)
    (collection : str) (m : Manuscript) :
  ingest_manuscript P S req st = (res, st', calls) →
  CallCreate collection m ∈ calls →
  collection = py "manuscript"
  ∧ m_format m ∈ supported_formats
  ∧ m_format m = _infer_format (source_url req) (format req)
  ∧ m_source_url m = source_url req
  ∧ m_title m = title req
  ∧ m_subtitle m = subtitle req
  ∧ m_cover_url m = cover_url req.
Proof.
  intros Hrun Hin.
  destruct (ingest_create_inv P S _ _ _ _ _ _ _ Hrun Hin)
    as (r & full_text & _ & Hext & -> & _ & _ & -> & _).
  simpl. repeat split. by eapply extract_body_supported.
Qed.

(** X9. In a persisted record the sample is absent exactly when the word
    count is 0, it is never present and empty, and the table of contents
    is never present and empty. *)
Theorem persisted_record_has_no_empty_field `{U : UnicodeData} {Store : Type}
    (P : Parsers) (S : Services Store) (req : IngestRequest)
    (st st' : Store) (res : result IngestResponse) (calls : list Call)
    (collection : str) (m : Manuscript) :
  ingest_manuscript P S req st = (res, st', calls) →
  CallCreate collection m ∈ calls →
  (m_sample_text m = None ↔ m_word_count m = 0)
  ∧ m_sample_text m ≠ Some []
  ∧ m_toc m ≠ Some [].
Proof.
  intros Hrun Hin.
  destruct (ingest_create_inv P S _ _ _ _ _ _ _ Hrun Hin)
    as (r & full_text & _ & _ & _ & _ & _ & -> & _).
  simpl. unfold or_none. split; [|split].
  - pose proof (make_sample_nil full_text) as Hnil.
    destruct (_make_sample full_text) as [|c sample] eqn:E; simpl.
    + split; [intros _|done]. by rewrite (proj1 Hnil eq_refl).
    + split; [done|]. intros Hz. apply length_zero_iff_nil, Hnil in Hz. done.
  - by destruct (_make_sample full_text).
  - by destruct (_extract_toc_from_text full_text).
Qed.

(** X10. A successful response reports what was persisted: the id the
    store returned, the format and the word count of the record, and the
    first 10 entries of its table of contents; the store is the one the
    create call left. *)
Theorem response_reports_persisted_record `{U : UnicodeData} {Store : Type}
    (P : Parsers) (S : Services Store) (req : IngestRequest)
    (st st' : Store) (resp : IngestResponse) (calls : list Call) :
  ingest_manuscript P S req st = (Return resp, st', calls) →
  ∃ m, calls = [CallGet (source_url req); CallCreate (py "manuscript") m]
       ∧ create_document S (py "manuscript") m st = (Return (r_id resp), st')
       ∧ r_status resp = py "ok"
       ∧ r_format resp = m_format m
       ∧ r_word_count resp = m_word_count m
       ∧ r_toc resp = take 10 (default [] (m_toc m))
       ∧ length (r_toc resp) ≤ 10.
Proof.
  intros Hrun.
  destruct (ingest_success_calls P S _ _ _ _ _ Hrun) as (m & Hcalls).
  assert (CallCreate (py "manuscript") m ∈ calls) as Hin.
  { rewrite Hcalls. apply list_elem_of_further, list_elem_of_here. }
  destruct (ingest_create_inv P S _ _ _ _ _ _ _ Hrun Hin)
    as (r & full_text & _ & _ & _ & _ & _ & Hm & Hresp).
  exists m. destruct (Hresp resp eq_refl) as [Hcreate Hresp'].
  clear Hresp. rename Hresp' into Hresp.
  split; [done|]. split; [done|].
  rewrite Hresp, Hm. simpl. repeat split.
  - unfold or_none. by destruct (_extract_toc_from_text full_text).
  - rewrite length_take. lia.
Qed.

(** The run of the Markdown scenario against a store with room for one
    record. *)
Lemma scenario_run_creates :
  ∃ resp st' m,
    ingest_manuscript (U:=ascii_data) no_parsers
      (memory_services 1 (ok_reply scenario_bytes)) md_request []
    = (Return resp, st',
       [CallGet (source_url md_request); CallCreate (py "manuscript") m]).
Proof. do 3 eexists. vm_compute. reflexivity. Qed.

Lemma persisted_record_is_well_formed_witness :
  ∃ res st' calls m,
    ingest_manuscript (U:=ascii_data) no_parsers
      (memory_services 1 (ok_reply scenario_bytes)) md_request []
    = (res, st', calls)
    ∧ CallCreate (py "manuscript") m ∈ calls
    ∧ m_format m ∈ supported_formats.
Proof.
  destruct scenario_run_creates as (resp & st' & m & Hrun).
  assert (Hin : CallCreate (py "manuscript") m
                ∈ [CallGet (source_url md_request);
                   CallCreate (py "manuscript") m]).
  { apply list_elem_of_further, list_elem_of_here. }
  exists (Return resp), st'. eexists. exists m.
  split; [exact Hrun|]. split; [exact Hin|].
  exact (proj1 (proj2
    (persisted_record_is_well_formed _ _ _ _ _ _ _ _ _ Hrun Hin))).
Defined.

Lemma persisted_record_has_no_empty_field_witness :
  ∃ res st' calls m,
    ingest_manuscript (U:=ascii_data) no_parsers
      (memory_services 1 (ok_reply scenario_bytes)) md_request []
    = (res, st', calls)
    ∧ CallCreate (py "manuscript") m ∈ calls
    ∧ m_toc m ≠ Some [].
Proof.
  destruct scenario_run_creates as (resp & st' & m & Hrun).
  assert (Hin : CallCreate (py "manuscript") m
                ∈ [CallGet (source_url md_request);
                   CallCreate (py "manuscript") m]).
  { apply list_elem_of_further, list_elem_of_here. }
  exists (Return resp), st'. eexists. exists m.
  split; [exact Hrun|]. split; [exact Hin|].
  exact (proj2 (proj2
    (persisted_record_has_no_empty_field _ _ _ _ _ _ _ _ _ Hrun Hin))).
Defined.

Lemma response_reports_persisted_record_witness :
  ∃ resp st' calls,
    ingest_manuscript (U:=ascii_data) no_parsers
      (memory_services 1 (ok_reply scenario_bytes)) md_request []
    = (Return resp, st', calls)
    ∧ length (r_toc resp) ≤ 10.
Proof.
  destruct scenario_run_creates as (resp & st' & m & Hrun).
  exists resp, st'. eexists. split; [exact Hrun|].
  destruct (response_reports_persisted_record _ _ _ _ _ _ _ Hrun)
    as (m' & _ & _ & _ & _ & _ & _ & Hlen).
  exact Hlen.
Defined.

(** ** Extractors: words of the parts, errors of the parts *)

Lemma split_lstrip s : py_split (py_lstrip s) = py_split s.
Proof.
  induction s as [|c s IH]; [done|]. simpl.
  destruct (isspace c) eqn:Hc; [|done].
  rewrite IH. unfold py_split. simpl. by rewrite Hc.
Qed.

Lemma split_trailing_space s c : isspace c = true → py_split (s ++ [c]) = py_split s.
Proof. intros Hc. rewrite py_split_sep by done. apply app_nil_r. Qed.

Lemma split_rev_lstrip r : py_split (rev (py_lstrip r)) = py_split (rev r).
Proof.
  induction r as [|c r IH]; [done|]. simpl.
  destruct (isspace c) eqn:Hc; [|done].
  by rewrite IH, split_trailing_space.
Qed.

(** Stripping a text does not change its words. *)
Lemma split_strip s : py_split (py_strip s) = py_split s.
Proof.
  unfold py_strip, py_rstrip.
  by rewrite split_rev_lstrip, rev_involutive, split_lstrip.
Qed.

(** Joining texts with a blank line keeps their words apart and whole. *)
Lemma split_join_blank_line items :
  py_split (py_join blank_line items) = concat (List.map py_split items).
Proof.
  induction items as [|x items IH]; [done|].
  destruct items as [|y items].
  - simpl. by rewrite app_nil_r.
  - change (py_join blank_line (x :: y :: items))
      with (x ++ 10%N :: ([] ++ 10%N :: py_join blank_line (y :: items))).
    rewrite !py_split_sep by done. rewrite IH. done.
Qed.

Lemma docx_loop_filter ps : ∀ paragraphs,
  docx_loop paragraphs ps
  = paragraphs ++ List.filter str_truthy (List.map py_strip ps).
Proof.
  induction ps as [|p ps IH]; intros paragraphs; simpl.
  - by rewrite app_nil_r.
  - destruct (str_truthy (py_strip p)); [|apply IH].
    rewrite IH. by rewrite <- app_assoc.
Qed.

Lemma split_kept_paragraphs ps :
  concat (List.map py_split (List.filter str_truthy (List.map py_strip ps)))
  = concat (List.map py_split ps).
Proof.
  induction ps as [|p ps IH]; [done|]. simpl.
  rewrite <- IH, <- (split_strip p).
  destruct (py_strip p) as [|c s]; simpl; [done|]. done.
Qed.

(** X11. The text extracted from a DOCX document is the blank-line join
    of its non-empty trimmed paragraphs, and its words are exactly the
    words of the paragraphs, in order: trimming, dropping empty paragraphs
    and joining neither add, lose, merge nor split a word. *)
Theorem docx_text_keeps_paragraph_words (P : Parsers) (file_bytes : bytes)
    (paragraphs : list str) :
  docx_paragraphs P file_bytes = Return paragraphs →
  ∃ text,
    _extract_docx P file_bytes = Return text
    ∧ text = py_join blank_line (List.filter str_truthy (List.map py_strip paragraphs))
    ∧ py_split text = concat (List.map py_split paragraphs).
Proof.
  intros Hdoc. unfold _extract_docx. rewrite Hdoc. simpl.
  rewrite docx_loop_filter. eexists. split; [reflexivity|]. split; [done|].
  simpl. by rewrite split_join_blank_line, split_kept_paragraphs.
Qed.

Lemma docx_text_keeps_paragraph_words_witness :
  docx_paragraphs chapter_parsers []
  = Return [py "  One  "; py " "; [10%N]; py "Two words"]
  ∧ ∃ text, _extract_docx chapter_parsers [] = Return text
            ∧ py_split text = [py "One"; py "Two"; py "words"].
Proof.
  split; [reflexivity|].
  destruct (docx_text_keeps_paragraph_words chapter_parsers [] _ eq_refl)
    as (text & Htext & _ & Hwords).
  exists text. split; [exact Htext|]. rewrite Hwords. reflexivity.
Defined.

(** X12. The words of the text extracted from a PDF are the words of the
    readable pages among the first 50, page after page; an unreadable page
    and every page after the 50th add none. *)
Theorem pdf_text_keeps_page_words (P : Parsers) (file_bytes : bytes)
    (pages : list PdfPage) :
  pdf_pages P file_bytes = Return pages →
  ∃ text,
    _extract_pdf P file_bytes = Return text
    ∧ py_split text
      = concat (List.map py_split (omap page_text_if_readable (take 50 pages))).
Proof.
  intros Hpages. unfold _extract_pdf. rewrite Hpages. simpl.
  rewrite pdf_loop_omap. eexists. split; [reflexivity|].
  simpl. by rewrite split_join_blank_line.
Qed.

Lemma pdf_text_keeps_page_words_witness :
  pdf_pages three_page_parsers [] = Return three_pages
  ∧ ∃ text, _extract_pdf three_page_parsers [] = Return text
            ∧ py_split text = [py "A"; py "B"].
Proof.
  split; [reflexivity|].
  destruct (pdf_text_keeps_page_words three_page_parsers [] _ eq_refl)
    as (text & Htext & Hwords).
  exists text. split; [exact Htext|]. rewrite Hwords. reflexivity.
Defined.






(** ** MarkdownExtractor: what the decoder yields *)

Lemma decode_ignore_scalar n : ∀ s text,
  length s ≤ n →
  decode_utf8 Ignore s = Return text →
  Forall scalar_value text ∧ length text ≤ length s.
Proof.
  induction n as [|n IH]; intros s text Hlen.
  - destruct s; [|simpl in Hlen; lia]. intros [= <-]. by split.
  - rewrite decode_utf8_unfold.
    destruct (utf8_step s) as [|ch rest|reason rest] eqn:Hstep.
    + intros [= <-]. split; [constructor | simpl; lia].
    + pose proof (utf8_step_scalar _ _ _ Hstep) as Hch.
      apply utf8_step_char in Hstep as (block & -> & Hne & _).
      rewrite length_app in *.
      assert (0 < length block) by (destruct block; [done|simpl; lia]).
      destruct (decode_utf8 Ignore rest) as [t|e] eqn:Hrest; [|done].
      intros [= <-]. destruct (IH rest t) as [Ht Hl]; [lia|done|].
      split; [by constructor | simpl; lia].
    + apply utf8_step_error in Hstep as (block & -> & Hne).
      rewrite length_app in *. intros Hrest.
      assert (0 < length block) by (destruct block; [done|simpl; lia]).
      destruct (IH rest text) as [Ht Hl]; [lia|done|].
      split; [done|lia].
Qed.

(** X15. The text decoded from Markdown bytes holds Unicode scalar values
    only (no surrogate, nothing above U+10FFFF), and it has at most as
    many code points as the input has bytes. *)
Theorem extract_md_yields_scalar_values (file_bytes : bytes) (text : str) :
  _extract_md file_bytes = Return text →
  Forall scalar_value text ∧ length text ≤ length file_bytes.
Proof. by apply (decode_ignore_scalar (length file_bytes)). Qed.

Lemma extract_md_yields_scalar_values_witness :
  _extract_md [xed; xa0; x80; xf0; x9f; x98; x80] = Return [128512%N]
  ∧ Forall scalar_value [128512%N].
Proof.
  assert (H : _extract_md [xed; xa0; x80; xf0; x9f; x98; x80]
              = Return [128512%N]) by reflexivity.
  split; [exact H|].
  exact (proj1 (extract_md_yields_scalar_values _ _ H)).
Defined.

(** X16. Bytes below 0x80 are decoded one to one: ASCII content comes out
    as it went in. *)
Theorem extract_md_ascii_is_identity (file_bytes : bytes) :
  Forall (fun b => (Byte.to_N b < 128)%N) file_bytes →
  _extract_md file_bytes = Return (List.map Byte.to_N file_bytes).
Proof.
  unfold _extract_md.
  induction file_bytes as [|b rest IH]; intros Hascii; [reflexivity|].
  inversion Hascii as [|? ? Hb Hrest]; subst.
  rewrite decode_utf8_unfold.
  assert (utf8_step (b :: rest) = StepChar (Byte.to_N b) rest) as ->.
  { unfold utf8_step. cbv zeta. by apply N.ltb_lt in Hb as ->. }
  by rewrite (IH Hrest).
Qed.

Lemma extract_md_ascii_is_identity_witness :
  Forall (fun b => (Byte.to_N b < 128)%N) scenario_bytes
  ∧ _extract_md scenario_bytes = Return (List.map Byte.to_N scenario_bytes).
Proof.
  assert (H : Forall (fun b => (Byte.to_N b < 128)%N) scenario_bytes).
  { apply Forall_forall. intros b Hb.
    assert (forallb (fun b => (Byte.to_N b <? 128)%N) scenario_bytes = true)
      as Hall by reflexivity.
    rewrite forallb_forall in Hall. apply N.ltb_lt, Hall.
    by apply list_elem_of_In. }
  split; [exact H|]. exact (extract_md_ascii_is_identity scenario_bytes H).
Defined.

(** ** The read endpoints *)

Lemma last_default {A} (l : list A) d : l ≠ [] → last l = Some (List.last l d).
Proof.
  induction l as [|x l IH]; [done|]. intros _.
  destruct l as [|y l]; [done|].
  change (last (x :: y :: l)) with (last (y :: l)).
  change (List.last (x :: y :: l) d) with (List.last (y :: l) d).
  by apply IH.
Qed.

(** X17. [get_latest_manuscript] answers from the last document the store
    returns: the response holds every field of that document except
    [_id], which it never holds; with no document it says so, and any
    failure of the store comes out as a 500 with the text of the
    exception. *)
Theorem latest_manuscript_hides_id {Value : Type} (R : Reader Value) :
  match get_documents R (py "manuscript") ∅ 1 with
  | Raise e =>
      get_latest_manuscript R = Raise (HTTPException 500 (reader_exn_str R e))
  | Return docs =>
      match last docs with
      | None => get_latest_manuscript R = Return (NoManuscript)
      | Some d =>
          ∃ m, get_latest_manuscript R = Return (LatestManuscript m)
               ∧ m !! py "_id" = None
               ∧ ∀ key, key ≠ py "_id" → m !! key = d !! key
      end
  end.
Proof.
  unfold get_latest_manuscript, latest_body.
  destruct (get_documents R (py "manuscript") ∅ 1) as [docs|e]; simpl; [|done].
  destruct docs as [|first rest]; [done|].
  rewrite (last_default (first :: rest) first) by done.
  eexists. split; [reflexivity|]. split.
  - apply lookup_delete_eq.
  - intros key Hkey. by apply lookup_delete_ne.
Qed.

Lemma latest_manuscript_hides_id_witness :
  ∃ m, get_latest_manuscript (fixed_reader [∅; stored_manuscript])
       = Return (LatestManuscript m)
       ∧ m !! py "_id" = None
       ∧ m !! py "sample_text" = Some (py "Hello world").
Proof.
  destruct (latest_manuscript_hides_id (fixed_reader [∅; stored_manuscript]))
    as (m & Hm & Hid & Hother).
  exists m. split; [exact Hm|]. split; [exact Hid|].
  rewrite Hother by discriminate. reflexivity.
Defined.

(** X18. [get_sample] answers 404 when the store has no manuscript, and
    that 404 is not turned into a 500; otherwise it reads [sample_text]
    and [toc] from the last document, a missing key giving [None]; every
    failure reaches the caller as an HTTP error. *)
Theorem sample_endpoint_errors_are_http {Value : Type} (R : Reader Value) :
  (get_documents R (py "manuscript") ∅ 1 = Return [] →
     get_sample R = Raise (HTTPException 404 (py "No manuscript available")))
  ∧ (∀ docs d, get_documents R (py "manuscript") ∅ 1 = Return docs →
       last docs = Some d →
       get_sample R = Return {| s_sample_text := d !! py "sample_text";
                                s_toc := d !! py "toc" |})
  ∧ (∀ e, get_sample R = Raise e → ∃ status detail, e = HTTPException status detail).
Proof.
  unfold get_sample, sample_body. split; [|split].
  - by intros ->.
  - intros docs d -> Hlast. destruct docs as [|first rest]; [done|].
    rewrite (last_default (first :: rest) first) in Hlast by done.
    by injection Hlast as <-.
  - intros e.
    destruct (get_documents R (py "manuscript") ∅ 1) as [docs|e0]; simpl.
    + destruct docs; [|done]. intros [= <-]. eauto.
    + destruct e0; intros [= <-]; eauto.
Qed.

Lemma sample_endpoint_errors_are_http_witness :
  get_documents (fixed_reader [∅; stored_manuscript]) (py "manuscript") ∅ 1
  = Return [∅; stored_manuscript]
  ∧ get_sample (fixed_reader [∅; stored_manuscript])
    = Return {| s_sample_text := Some (py "Hello world"); s_toc := None |}.
Proof.
  split; [reflexivity|].
  rewrite (proj1 (proj2
    (sample_endpoint_errors_are_http (fixed_reader [∅; stored_manuscript])))
    [∅; stored_manuscript] stored_manuscript eq_refl eq_refl).
  f_equal.
Defined.

(** ** The diagnostic endpoint *)

(** X19. The fields [database_url] and [database_name] of the diagnostic
    response never hold the name of the database: whatever the handle
    says, they only tell whether the environment variables [DATABASE_URL]
    and [DATABASE_NAME] are set, an empty value counting as not set. *)
Theorem diagnostics_show_only_whether_set (E : Diagnostics) :
  let response := test_database E in
  let shown (name : str) :=
    Some (if opt_truthy (getenv E name)
          then check_mark ++ py " Set" else cross_mark ++ py " Not Set") in
  t_database_url response = shown (py "DATABASE_URL")
  ∧ t_database_name response = shown (py "DATABASE_NAME")
  ∧ t_backend response = check_mark ++ py " Running".
Proof.
  unfold test_database. cbv zeta.
  destruct (db E) as [handle|]; [|done].
  destruct (list_collection_names handle); done.
Qed.

(** X20. The diagnostic response lists at most 10 collections, the first
    ones the database names, and none unless the listing succeeded; the
    status is [Connected] exactly when there is a database handle; and the
    [database] message has at most 76 code points, the text of a listing
    error being cut to 50. *)
Theorem diagnostics_are_bounded (E : Diagnostics) :
  let response := test_database E in
  length (t_collections response) ≤ 10
  ∧ (t_collections response ≠ [] →
       ∃ handle names,
         db E = Some handle
         ∧ list_collection_names handle = Return names
         ∧ t_collections response = take 10 names
         ∧ t_database response = check_mark ++ py " Connected & Working")
  ∧ (t_connection_status response = py "Connected" ↔ db E ≠ None)
  ∧ (∀ handle e, db E = Some handle →
       list_collection_names handle = Raise e →
       t_database response
       = warning_sign ++ py "  Connected but Error: " ++ take 50 (diag_exn_str E e))
  ∧ length (t_database response) ≤ 76.
Proof.
  unfold test_database. cbv zeta.
  destruct (db E) as [handle|] eqn:Hdb.
  - destruct (list_collection_names handle) as [names|e] eqn:Hlist; simpl.
    + split; [rewrite length_take; lia|].
      split; [intros _; by exists handle, names|].
      split; [done|]. split; [|simpl; lia].
      intros handle' e' [= <-]. by rewrite Hlist.
    + split; [lia|]. split; [done|]. split; [done|]. split.
      * intros handle' e' [= <-]. rewrite Hlist. by intros [= <-].
      * rewrite length_take. lia.
  - simpl. split; [lia|]. split; [done|]. split; [|split; [done|lia]].
    split; [discriminate|done].
Qed.

Lemma diagnostics_are_bounded_witness :
  db failing_db
  = Some {| db_name := Some (py "prod");
            list_collection_names := Raise (Error (py "timeout")) |}
  ∧ t_database (test_database failing_db)
    = warning_sign ++ py "  Connected but Error: " ++ py "timeout".
Proof.
  split; [reflexivity|].
  exact (proj1 (proj2 (proj2 (proj2 (diagnostics_are_bounded failing_db))))
           _ (Error (py "timeout")) eq_refl eq_refl).
Defined.
